(** * Spoiler-Shield backend: the answer pipeline of [ai.service.ts],
      the question store adapter of [questions.service.ts] and the vector
      helpers of [embedding.util.ts], embedded in Rocq.

    JavaScript numbers that hold embeddings and similarities are IEEE-754
    doubles, modelled by Rocq's primitive floats; chapter orders and chapter
    limits are integers ([Z]), [null] columns are [option]. *)

From Stdlib Require Import ZArith List Bool Floats Lia Permutation Sorted.
From Stdlib Require Import String Ascii.
From stdpp Require Import base option list strings gmap pretty sorting.

Set Default Proof Using "Type".
Local Open Scope Z_scope.

(* ===================================================================== *)
(** * JavaScript helpers *)
(* ===================================================================== *)

Module JS.

(** A call either yields a value or throws; thrown values are [Error]s,
    kept by their message. *)
Inductive Exc (A : Type) : Type :=
| Ok (a : A)
| Throw (e : string).
Arguments Ok {A} a.
Arguments Throw {A} e.

(** [Array.prototype.reduce] with the index passed to the callback. *)
Fixpoint reduce_from {A B : Type} (f : B -> A -> nat -> B) (i : nat)
    (l : list A) (acc : B) : B :=
  match l with
  | [] => acc
  | x :: t => reduce_from f (S i) t (f acc x i)
  end.

Definition reduce {A B : Type} (f : B -> A -> nat -> B) (l : list A) (init : B) : B :=
  reduce_from f 0 l init.

(** [vec[i]] on an array of numbers: reading past the end is [undefined],
    which arithmetic converts to [NaN]. *)
Definition index (vec : list float) (i : nat) : float := nth i vec nan.

(** [ToNumber] on a numeric column that may be [null]. *)
Definition num (x : option Z) : Z := default 0 x.

(** What [Array.prototype.sort] reads off the number its [compareFn]
    returns: whether it is greater than zero ([NaN] is not). *)
Class Number (N : Type) : Type := gt0 : N -> bool.

#[global] Instance Number_Z : Number Z := fun z => 0 <? z.
#[global] Instance Number_float : Number float := fun f => (0 <? f)%float.

(** [Array.prototype.sort(compareFn)] is a stable sort: an element moves
    behind another only when [compareFn] puts it there. With a consistent
    [compareFn] every stable sort gives this result; with an inconsistent
    one (a comparator that returns [NaN] for some pairs only, say)
    ECMAScript leaves the order to the engine, and this function need not
    agree with it: what is stated below about the order of a sorted list
    is stated for a comparator that is consistent on the list. *)
Fixpoint insert {A N : Type} `{Number N} (compareFn : A -> A -> N)
    (x : A) (l : list A) : list A :=
  match l with
  | [] => [x]
  | y :: t =>
      if gt0 (compareFn x y) then y :: insert compareFn x t
      else x :: y :: t
  end.

Definition sort {A N : Type} `{Number N} (compareFn : A -> A -> N)
    (l : list A) : list A :=
  foldr (insert compareFn) [] l.

(** [Array.prototype.join(separator)] on strings. *)
Fixpoint join (separator : string) (l : list string) : string :=
  match l with
  | [] => ""
  | [x] => x
  | x :: t => x +:+ separator +:+ join separator t
  end.

(** [a || b] on strings that may be [null]. *)
Definition or_string (a : option string) (b : string) : string :=
  match a with
  | Some t => if String.eqb t "" then b else t
  | None => b
  end.

(** A template literal's rendering of a numeric column and of an optional
    string. *)
Definition show_num (x : option Z) : string :=
  match x with
  | Some z => pretty z
  | None => "null"
  end.

Definition show_optional (x : option string) : string := default "undefined" x.

Definition nl : string := String (ascii_of_nat 10) EmptyString.
Definition quote : string := String (ascii_of_nat 34) EmptyString.

End JS.

(* ===================================================================== *)
(** * utils/embedding.util.ts *)
(* ===================================================================== *)

Definition cosineSimilarity (vecA vecB : list float) : float :=
  let dot := JS.reduce (fun sum a i => (sum + a * JS.index vecB i)%float) vecA 0%float in
  let magA := PrimFloat.sqrt (JS.reduce (fun sum a _ => (sum + a * a)%float) vecA 0%float) in
  let magB := PrimFloat.sqrt (JS.reduce (fun sum b _ => (sum + b * b)%float) vecB 0%float) in
  (dot / (magA * magB))%float.


(** The formula in the words of the specification,
    [dot(a,b) / (|a| * |b|)], over doubles. *)
Definition dot (a b : list float) : float :=
  fold_left (fun s p => (s + fst p * snd p)%float) (combine a b) 0%float.

Definition norm (a : list float) : float :=
  PrimFloat.sqrt (fold_left (fun s x => (s + x * x)%float) a 0%float).

Definition zero_vector (a : list float) : Prop :=
  Forall (fun x => PrimFloat.is_zero x = true) a.

(* ===================================================================== *)
(** * types/database.type.ts *)
(* ===================================================================== *)

(** The three values the services write into [questions.status]. *)
Inductive Status : Type := pending | answered | failed.

#[global] Instance Status_eq_dec : EqDecision Status.
Proof. solve_decision. Defined.

Module Title.
Record t : Type := mk {
  id : string;
  name : option string;
  coverImage : option string
}.
End Title.

Module Question.
Record t : Type := mk {
  id : string;
  user_id : string;
  title_id : string;
  chapter_limit : option Z;
  question_text : option string;
  answer_text : option string;
  status : option Status;
  created_at : string;
  updated_at : string
}.
End Question.

(** [QuestionWithTitle extends Question { titles?: Title }]. *)
Module QuestionWithTitle.
Record t : Type := mk {
  row : Question.t;
  titles : option Title.t
}.
End QuestionWithTitle.

Module Chapter.
Record t : Type := mk {
  id : string;
  title_id : string;
  order : option Z;
  name : option string;
  content : option string
}.
End Chapter.

(** [ApiResponse<T>]: every field but [success] is optional. *)
Module ApiResponse.
Record t (T : Type) : Type := mk {
  success : bool;
  data : option T;
  error : option string;
  message : option string
}.
Arguments mk {T}.
Arguments success {T}.
Arguments data {T}.
Arguments error {T}.
Arguments message {T}.
End ApiResponse.

(* ===================================================================== *)
(** * lib/supabase.ts: the store client, as the services use it *)
(* ===================================================================== *)

(** What [await supabase.from(..)...] resolves to: [{ data, error }]. *)
Module Pg.
Record Error : Type := mkError { message : string }.

Record Response (T : Type) : Type := mk {
  data : option T;
  error : option Error
}.
Arguments mk {T}.
Arguments data {T}.
Arguments error {T}.
End Pg.

(** The object given to [.insert] by [createQuestion]. *)
Record InsertQuestion : Type := {
  ins_user_id : string;
  ins_title_id : string;
  ins_question_text : string;
  ins_chapter_limit : Z;
  ins_status : Status
}.

(** The object given to [.update]: absent keys leave the column alone. *)
Record UpdateQuestion : Type := {
  upd_answer_text : option string;
  upd_status : option Status;
  upd_updated_at : string
}.

(** [.eq(column, value)] and [.gte(column, value)]. *)
Inductive Filter : Type :=
| eq_ (column value : string)
| gte (column value : string).

(** A row of the [chapter_embeddings] select with its inner-joined chapter:
    the embedding arrives as an array or as its JSON text, the chapter as
    an object or as an array of objects. A column that holds [null], or
    the JSON text of something other than an array of numbers, is outside
    these types: the code carries such a value on to [cosineSimilarity],
    which throws on it after the question-embedding call. *)
Inductive RawEmbedding : Type :=
| EmbeddingArray (v : list float)
| EmbeddingString (s : string).

Inductive JoinedChapters : Type :=
| ChaptersObject (c : Chapter.t)
| ChaptersArray (cs : list Chapter.t).

Module EmbeddingRow.
Record t : Type := mk {
  embedding : RawEmbedding;
  chapters : JoinedChapters
}.
End EmbeddingRow.

(** Calls that leave the process. *)
Inductive Event : Type :=
| QuestionsInsert (q : InsertQuestion)
| QuestionsSelectSingle (questionId : string)
| QuestionsSelectList (filters : list Filter)
| QuestionsUpdate (questionId : string) (u : UpdateQuestion)
| QuestionsDelete (questionId : string)
| ChapterEmbeddingsSelect (title_id : string)
| HuggingFacePost (text : string)
| ChatCompletionsCreate (prompt : string).

(** The queries the two services build, one method per query shape. A call
    may resolve to [{data, error}] or reject, and may change the store. *)
Class Supabase (DB : Type) : Type := {
  (* from('questions').insert(..).select().single() *)
  questions_insert : InsertQuestion -> DB -> JS.Exc (Pg.Response Question.t) * DB;
  (* from('questions').select('*, titles(id, name, coverImage)').eq('id', ..).single() *)
  questions_select_single : string -> DB -> JS.Exc (Pg.Response QuestionWithTitle.t) * DB;
  (* from('questions').select('*, titles(..)')<filters>.order('created_at', {ascending: false}) *)
  questions_select_list : list Filter -> DB -> JS.Exc (Pg.Response (list QuestionWithTitle.t)) * DB;
  (* from('questions').update(..).eq('id', ..).select().single() *)
  questions_update : string -> UpdateQuestion -> DB -> JS.Exc (Pg.Response Question.t) * DB;
  (* from('questions').delete().eq('id', ..) *)
  questions_delete : string -> DB -> JS.Exc (Pg.Response unit) * DB;
  (* from('chapter_embeddings').select('embedding, chapters!inner(..)').eq('chapters.title_id', ..) *)
  chapter_embeddings_select : string -> DB -> JS.Exc (Pg.Response (list EmbeddingRow.t)) * DB
}.

(** What a run cannot compute by itself: the clock, [JSON.parse], and the
    two model providers. *)
Record Runtime : Type := {
  (* new Date().toISOString() *)
  now_iso : string;
  (* d = new Date(); d.setDate(d.getDate() - days); d.toISOString(),
     which throws a RangeError on an invalid date *)
  days_ago_iso : Z -> JS.Exc string;
  (* JSON.parse on a stored embedding: [None] when it throws *)
  JSON_parse : string -> option (list float);
  (* axios.post to the embedding model: rejects, or resolves with
     [response.data[0]], which is an array of numbers or is not *)
  axios_post : string -> JS.Exc (option (list float));
  (* openai.chat.completions.create: rejects, or resolves with
     [response.choices[0]?.message?.content] *)
  chat_completions_create : string -> JS.Exc (option string)
}.

(* ===================================================================== *)
(** * Async code: store and trace threaded, exceptions propagated *)
(* ===================================================================== *)

Module Run.
Import JS.

Record St (DB : Type) : Type := mkSt {
  db : DB;
  trace : list Event
}.
Arguments mkSt {DB}.
Arguments db {DB}.
Arguments trace {DB}.

Definition M (DB A : Type) : Type := St DB -> Exc A * St DB.

Definition ret {DB A} (a : A) : M DB A := fun s => (Ok a, s).

Definition throw {DB A} (e : string) : M DB A := fun s => (Throw e, s).

Definition bind {DB A B} (c : M DB A) (k : A -> M DB B) : M DB B :=
  fun s =>
    match c s with
    | (Ok a, s') => k a s'
    | (Throw e, s') => (Throw e, s')
    end.

(** [try { body } catch (error) { handler }]: what the body did to the
    store before it threw stays done. *)
Definition try_catch {DB A} (body : M DB A) (handler : string -> M DB A) : M DB A :=
  fun s =>
    match body s with
    | (Ok a, s') => (Ok a, s')
    | (Throw e, s') => handler e s'
    end.

(** A store query: recorded, then run by the client. *)
Definition query {DB A} (ev : Event) (q : DB -> Exc A * DB) : M DB A :=
  fun s =>
    let '(r, d) := q (db s) in
    (r, mkSt d (trace s ++ [ev])).

(** A provider call: recorded; the store is not involved. *)
Definition external {DB A} (ev : Event) (r : Exc A) : M DB A :=
  fun s => (r, mkSt (db s) (trace s ++ [ev])).

(** Lifting a pure computation that may throw. *)
Definition lift {DB A} (r : Exc A) : M DB A := fun s => (r, s).

End Run.

Notation "'let*' x ':=' c 'in' k" := (Run.bind c (fun x => k))
  (at level 10, x name, c at level 100, k at level 200).
Notation "'do' c 'then' k" := (Run.bind c (fun _ => k))
  (at level 10, c at level 100, k at level 200).

(* ===================================================================== *)
(** * services/questions.service.ts *)
(* ===================================================================== *)

Definition status_text (s : Status) : string :=
  match s with
  | pending => "pending"
  | answered => "answered"
  | failed => "failed"
  end.

(** JavaScript truthiness of an optional string argument. *)
Definition truthy_string (s : option string) : bool :=
  match s with
  | Some t => negb (String.eqb t "")
  | None => false
  end.

Record QuestionData : Type := {
  qd_user_id : string;
  qd_title_id : string;
  qd_question_text : string;
  qd_chapter_limit : Z
}.

Module questionsService.
Section client.
Context {DB : Type} `{!Supabase DB} (rt : Runtime).

Definition createQuestion (questionData : QuestionData)
  : Run.M DB (ApiResponse.t Question.t) :=
  Run.try_catch
    (let row := {| ins_user_id := qd_user_id questionData;
                   ins_title_id := qd_title_id questionData;
                   ins_question_text := qd_question_text questionData;
                   ins_chapter_limit := qd_chapter_limit questionData;
                   ins_status := pending |} in
     let* r := Run.query (QuestionsInsert row) (questions_insert row) in
     match Pg.error r with
     | Some error =>
         Run.ret (ApiResponse.mk false None (Some (Pg.message error)) None)
     | None =>
         Run.ret (ApiResponse.mk true (Pg.data r) None
                    (Some "Question created successfully"))
     end)
    (fun _ => Run.ret (ApiResponse.mk false None (Some "Failed to create question") None)).

Definition getUserQuestions (userId : string) (titleId : option string)
  : Run.M DB (ApiResponse.t (list QuestionWithTitle.t)) :=
  Run.try_catch
    (let query :=
       [eq_ "user_id" userId] ++
       (if truthy_string titleId then [eq_ "title_id" (default "" titleId)] else []) in
     let* r := Run.query (QuestionsSelectList query) (questions_select_list query) in
     match Pg.error r with
     | Some error =>
         Run.ret (ApiResponse.mk false None (Some (Pg.message error)) None)
     | None =>
         Run.ret (ApiResponse.mk true (Some (default [] (Pg.data r))) None None)
     end)
    (fun _ => Run.ret (ApiResponse.mk false None (Some "Failed to fetch user questions") None)).

Definition getQuestionById (questionId : string)
  : Run.M DB (ApiResponse.t QuestionWithTitle.t) :=
  Run.try_catch
    (let* r := Run.query (QuestionsSelectSingle questionId)
                 (questions_select_single questionId) in
     match Pg.error r with
     | Some error =>
         Run.ret (ApiResponse.mk false None (Some (Pg.message error)) None)
     | None =>
         Run.ret (ApiResponse.mk true (Pg.data r) None None)
     end)
    (fun _ => Run.ret (ApiResponse.mk false None (Some "Failed to fetch question") None)).

Definition updateQuestionAnswer (questionId answerText : string)
  : Run.M DB (ApiResponse.t Question.t) :=
  Run.try_catch
    (let u := {| upd_answer_text := Some answerText;
                 upd_status := Some answered;
                 upd_updated_at := now_iso rt |} in
     let* r := Run.query (QuestionsUpdate questionId u) (questions_update questionId u) in
     match Pg.error r with
     | Some error =>
         Run.ret (ApiResponse.mk false None (Some (Pg.message error)) None)
     | None =>
         Run.ret (ApiResponse.mk true (Pg.data r) None
                    (Some "Question answered successfully"))
     end)
    (fun _ => Run.ret (ApiResponse.mk false None (Some "Failed to update question answer") None)).

Definition updateQuestionStatus (questionId : string) (status : Status)
  : Run.M DB (ApiResponse.t Question.t) :=
  Run.try_catch
    (let u := {| upd_answer_text := None;
                 upd_status := Some status;
                 upd_updated_at := now_iso rt |} in
     let* r := Run.query (QuestionsUpdate questionId u) (questions_update questionId u) in
     match Pg.error r with
     | Some error =>
         Run.ret (ApiResponse.mk false None (Some (Pg.message error)) None)
     | None =>
         Run.ret (ApiResponse.mk true (Pg.data r) None
                    (Some "Question status updated successfully"))
     end)
    (fun _ => Run.ret (ApiResponse.mk false None (Some "Failed to update question status") None)).

Definition deleteQuestion (questionId : string) : Run.M DB (ApiResponse.t unit) :=
  Run.try_catch
    (let* r := Run.query (QuestionsDelete questionId) (questions_delete questionId) in
     match Pg.error r with
     | Some error =>
         Run.ret (ApiResponse.mk false None (Some (Pg.message error)) None)
     | None =>
         Run.ret (ApiResponse.mk true None None (Some "Question deleted successfully"))
     end)
    (fun _ => Run.ret (ApiResponse.mk false None (Some "Failed to delete question") None)).

Definition getQuestionsByStatus (userId : string) (status : Status)
  : Run.M DB (ApiResponse.t (list QuestionWithTitle.t)) :=
  Run.try_catch
    (let query := [eq_ "user_id" userId; eq_ "status" (status_text status)] in
     let* r := Run.query (QuestionsSelectList query) (questions_select_list query) in
     match Pg.error r with
     | Some error =>
         Run.ret (ApiResponse.mk false None (Some (Pg.message error)) None)
     | None =>
         Run.ret (ApiResponse.mk true (Some (default [] (Pg.data r))) None None)
     end)
    (fun _ => Run.ret (ApiResponse.mk false None (Some "Failed to fetch questions by status") None)).

(** [days] defaults to 7 when the argument is left out. *)
Definition getRecentQuestions (userId : string) (days : option Z)
  : Run.M DB (ApiResponse.t (list QuestionWithTitle.t)) :=
  Run.try_catch
    (let* cutoffDate := Run.lift (days_ago_iso rt (default 7 days)) in
     let query := [eq_ "user_id" userId; gte "created_at" cutoffDate] in
     let* r := Run.query (QuestionsSelectList query) (questions_select_list query) in
     match Pg.error r with
     | Some error =>
         Run.ret (ApiResponse.mk false None (Some (Pg.message error)) None)
     | None =>
         Run.ret (ApiResponse.mk true (Some (default [] (Pg.data r))) None None)
     end)
    (fun _ => Run.ret (ApiResponse.mk false None (Some "Failed to fetch recent questions") None)).

Definition getQuestionsByTitle (userId titleId : string)
  : Run.M DB (ApiResponse.t (list QuestionWithTitle.t)) :=
  Run.try_catch
    (let query := [eq_ "user_id" userId; eq_ "title_id" titleId] in
     let* r := Run.query (QuestionsSelectList query) (questions_select_list query) in
     match Pg.error r with
     | Some error =>
         Run.ret (ApiResponse.mk false None (Some (Pg.message error)) None)
     | None =>
         Run.ret (ApiResponse.mk true (Some (default [] (Pg.data r))) None None)
     end)
    (fun _ => Run.ret (ApiResponse.mk false None (Some "Failed to fetch questions by title") None)).

End client.
End questionsService.

(* ===================================================================== *)
(** * utils/embedding.util.ts: getEmbedding *)
(* ===================================================================== *)

Section getEmbedding.
Context {DB : Type} (rt : Runtime).

Definition getEmbedding (text : string) : Run.M DB (list float) :=
  Run.try_catch
    (let* embedding := Run.external (HuggingFacePost text) (axios_post rt text) in
     match embedding with
     | Some embedding => Run.ret embedding
     | None => Run.throw "Invalid embedding response from Hugging Face"
     end)
    (fun _ => Run.throw "Failed to generate embedding using Hugging Face").

End getEmbedding.

(* ===================================================================== *)
(** * services/ai.service.ts *)
(* ===================================================================== *)

(** An element of [chaptersWithEmbeddings]. *)
Module Candidate.
Record t : Type := mk {
  chapter : Chapter.t;
  embedding : list float
}.
End Candidate.

(** An element of [chaptersWithScores]. *)
Module Scored.
Record t : Type := mk {
  id : string;
  name : option string;
  order : option Z;
  content : option string;
  title_id : string;
  similarity : float
}.
End Scored.

(** The right-hand side of the boundary test, [chapter_limit || Infinity]. *)
Inductive Bound : Type :=
| Finite (z : Z)
| Infinity.

Definition limit_or_infinity (chapter_limit : option Z) : Bound :=
  match chapter_limit with
  | Some l => if l =? 0 then Infinity else Finite l
  | None => Infinity
  end.

(** [order <= bound], the order converted by [ToNumber]. *)
Definition le_bound (order : option Z) (b : Bound) : bool :=
  match b with
  | Finite l => JS.num order <=? l
  | Infinity => true
  end.

(** [Array.isArray(item.chapters) ? item.chapters[0] : item.chapters];
    [None] is [undefined]. *)
Definition chapter_of (item : EmbeddingRow.t) : option Chapter.t :=
  match EmbeddingRow.chapters item with
  | ChaptersObject c => Some c
  | ChaptersArray cs => head cs
  end.

Definition parse_embedding (rt : Runtime) (raw : RawEmbedding) : JS.Exc (list float) :=
  match raw with
  | EmbeddingArray v => JS.Ok v
  | EmbeddingString s =>
      match JSON_parse rt s with
      | Some v => JS.Ok v
      | None => JS.Throw "Invalid embedding format in DB"
      end
  end.

(** The [embeddingsData.forEach] loop: every row is parsed, rows within the
    boundary are pushed. [chapter?.order <= ..] is false on [undefined]. *)
Fixpoint forEach_push (rt : Runtime) (chapter_limit : option Z)
    (items : list EmbeddingRow.t) (chaptersWithEmbeddings : list Candidate.t)
  : JS.Exc (list Candidate.t) :=
  match items with
  | [] => JS.Ok chaptersWithEmbeddings
  | item :: rest =>
      match parse_embedding rt (EmbeddingRow.embedding item) with
      | JS.Throw e => JS.Throw e
      | JS.Ok parsedEmbedding =>
          match chapter_of item with
          | Some chapter =>
              if le_bound (Chapter.order chapter) (limit_or_infinity chapter_limit)
              then forEach_push rt chapter_limit rest
                     (chaptersWithEmbeddings ++ [Candidate.mk chapter parsedEmbedding])
              else forEach_push rt chapter_limit rest chaptersWithEmbeddings
          | None => forEach_push rt chapter_limit rest chaptersWithEmbeddings
          end
      end
  end.

Definition score (questionEmbedding : list float) (item : Candidate.t) : Scored.t :=
  let chapter := Candidate.chapter item in
  {| Scored.id := Chapter.id chapter;
     Scored.name := Chapter.name chapter;
     Scored.order := Chapter.order chapter;
     Scored.content := Chapter.content chapter;
     Scored.title_id := Chapter.title_id chapter;
     Scored.similarity := cosineSimilarity questionEmbedding (Candidate.embedding item) |}.

(** [(a, b) => b.similarity - a.similarity] *)
Definition by_similarity (a b : Scored.t) : float :=
  (Scored.similarity b - Scored.similarity a)%float.

(** [(a, b) => a.order - b.order] *)
Definition by_order (a b : Scored.t) : Z :=
  JS.num (Scored.order a) - JS.num (Scored.order b).

(** [chaptersWithScores.sort(..).slice(0, 5)] *)
Definition relevantChapters_of (chaptersWithScores : list Scored.t) : list Scored.t :=
  take 5 (JS.sort by_similarity chaptersWithScores).

(** [relevantChapters.sort(..)], the input of the [.map] that renders. *)
Definition narrative (relevantChapters : list Scored.t) : list Scored.t :=
  JS.sort by_order relevantChapters.

Definition render (chapter : Scored.t) : string :=
  let chapterName :=
    JS.or_string (Scored.name chapter) ("Chapter " +:+ JS.show_num (Scored.order chapter)) in
  let chapterContent := JS.or_string (Scored.content chapter) "" in
  "Chapter " +:+ JS.show_num (Scored.order chapter) +:+ ": " +:+ chapterName
    +:+ JS.nl +:+ chapterContent.

Definition contextText_of (relevantChapters : list Scored.t) : string :=
  JS.join (JS.nl +:+ JS.nl) (map render (narrative relevantChapters)).

(** [chapter_limit || "limit"] inside the template. *)
Definition limit_or_word (chapter_limit : option Z) : string :=
  match chapter_limit with
  | Some l => if l =? 0 then "limit" else pretty l
  | None => "limit"
  end.

Definition prompt_of (contextText question_text : string) (chapter_limit : option Z) : string :=
  JS.nl +:+
  "You are a helpful assistant. Use ONLY the information provided in the chapters below to answer the question. DO NOT use prior knowledge or guess. If the answer isn't found in the content, reply: "
    +:+ JS.quote +:+ "I could not find the answer in the provided chapters." +:+ JS.quote +:+ JS.nl +:+
  JS.nl +:+
  "### Available Chapters (selected based on relevance):" +:+ JS.nl +:+
  contextText +:+ JS.nl +:+
  JS.nl +:+
  "### Question:" +:+ JS.nl +:+
  question_text +:+ JS.nl +:+
  JS.nl +:+
  "### Notes:" +:+ JS.nl +:+
  "- Avoid spoilers from content beyond Chapter " +:+ limit_or_word chapter_limit +:+ JS.nl +:+
  "- Stay factual and concise." +:+ JS.nl +:+
  "- Do NOT fabricate or assume details not present in the text." +:+ JS.nl.

Module aiService.
Section client.
Context {DB : Type} `{!Supabase DB} (rt : Runtime).

Definition generateAnswer (questionId : string) : Run.M DB string :=
  Run.try_catch
    (let* questionResponse := questionsService.getQuestionById questionId in
     match ApiResponse.success questionResponse, ApiResponse.data questionResponse with
     | true, Some data =>
         let title_id := Question.title_id (QuestionWithTitle.row data) in
         let chapter_limit := Question.chapter_limit (QuestionWithTitle.row data) in
         let question_text := Question.question_text (QuestionWithTitle.row data) in
         let* fetched := Run.query (ChapterEmbeddingsSelect title_id)
                           (chapter_embeddings_select title_id) in
         match Pg.error fetched, Pg.data fetched with
         | None, Some (item0 :: items) =>
             let embeddingsData := item0 :: items in
             let* chaptersWithEmbeddings :=
               Run.lift (forEach_push rt chapter_limit embeddingsData []) in
             if (length chaptersWithEmbeddings =? 0)%nat then
               Run.throw ("No chapters available within chapter limit: "
                            +:+ JS.show_num chapter_limit)
             else if negb (truthy_string question_text) then
               Run.throw "Question text is null or empty"
             else
               let question_text := default "" question_text in
               let* questionEmbedding := getEmbedding rt question_text in
               let chaptersWithScores := map (score questionEmbedding) chaptersWithEmbeddings in
               let relevantChapters := relevantChapters_of chaptersWithScores in
               if (length relevantChapters =? 0)%nat then
                 Run.throw "No relevant chapters found based on semantic similarity."
               else
                 let contextText := contextText_of relevantChapters in
                 let prompt := prompt_of contextText question_text chapter_limit in
                 do questionsService.updateQuestionStatus rt questionId pending then
                 let* answer := Run.external (ChatCompletionsCreate prompt)
                                  (chat_completions_create rt prompt) in
                 if negb (truthy_string answer) then
                   Run.throw "No answer generated by AI"
                 else
                   let answer := default "" answer in
                   do questionsService.updateQuestionAnswer rt questionId answer then
                   do questionsService.updateQuestionStatus rt questionId answered then
                   Run.ret answer
         | error, _ =>
             Run.throw ("Failed to fetch chapter embeddings: "
                          +:+ JS.show_optional (Pg.message <$> error))
         end
     | _, _ =>
         Run.throw ("Question not found: "
                      +:+ JS.show_optional (ApiResponse.error questionResponse))
     end)
    (fun error =>
       do questionsService.updateQuestionStatus rt questionId failed then
       Run.throw error).

End client.
End aiService.

(* ===================================================================== *)
(** * An in-memory store behind the client interface *)
(* ===================================================================== *)

(** The tables the services touch, with the outcome of each call open to
    failure: a call resolves normally, resolves with [{data: null, error}],
    or rejects. One invocation issues no call twice, so the failure of a
    call is looked up by the call itself. *)
Module Mem.

Inductive Fault : Type :=
| NoFault
| Failing (message : string)
| Rejecting (e : string).

Record DB : Type := mkDB {
  questions : gmap string Question.t;
  titles : gmap string Title.t;
  chapter_embeddings : list EmbeddingRow.t;
  (* the primary keys and timestamps the store will hand to inserted rows *)
  uuids : list (string * string)
}.

Definition no_rows : Pg.Error :=
  Pg.mkError "JSON object requested, multiple (or no) rows returned".

Definition guarded {A : Type} (f : Fault) (run : DB -> Pg.Response A * DB) (d : DB)
  : JS.Exc (Pg.Response A) * DB :=
  match f with
  | NoFault => let '(r, d') := run d in (JS.Ok r, d')
  | Failing m => (JS.Ok (Pg.mk None (Some (Pg.mkError m))), d)
  | Rejecting e => (JS.Throw e, d)
  end.

Definition set_questions (qs : gmap string Question.t) (d : DB) : DB :=
  mkDB qs (titles d) (chapter_embeddings d) (uuids d).

Definition apply_update (u : UpdateQuestion) (q : Question.t) : Question.t :=
  {| Question.id := Question.id q;
     Question.user_id := Question.user_id q;
     Question.title_id := Question.title_id q;
     Question.chapter_limit := Question.chapter_limit q;
     Question.question_text := Question.question_text q;
     Question.answer_text :=
       match upd_answer_text u with
       | Some a => Some a
       | None => Question.answer_text q
       end;
     Question.status :=
       match upd_status u with
       | Some st => Some st
       | None => Question.status q
       end;
     Question.created_at := Question.created_at q;
     Question.updated_at := upd_updated_at u |}.

Definition with_title (d : DB) (q : Question.t) : QuestionWithTitle.t :=
  QuestionWithTitle.mk q (titles d !! Question.title_id q).

Definition column (q : Question.t) (name : string) : option string :=
  if String.eqb name "id" then Some (Question.id q)
  else if String.eqb name "user_id" then Some (Question.user_id q)
  else if String.eqb name "title_id" then Some (Question.title_id q)
  else if String.eqb name "status" then status_text <$> Question.status q
  else if String.eqb name "created_at" then Some (Question.created_at q)
  else None.

Definition matches (q : Question.t) (f : Filter) : bool :=
  match f with
  | eq_ c v =>
      match column q c with
      | Some x => String.eqb x v
      | None => false
      end
  | gte c v =>
      match column q c with
      | Some x => String.leb v x
      | None => false
      end
  end.

Definition newest_first (a b : Question.t) : Z :=
  match String.compare (Question.created_at b) (Question.created_at a) with
  | Lt => -1
  | Eq => 0
  | Gt => 1
  end.

Definition insert_row (row : InsertQuestion) (d : DB) : Pg.Response Question.t * DB :=
  match uuids d with
  | [] => (Pg.mk None (Some (Pg.mkError "insert failed")), d)
  | (id, at_) :: rest =>
      let q := {| Question.id := id;
                  Question.user_id := ins_user_id row;
                  Question.title_id := ins_title_id row;
                  Question.chapter_limit := Some (ins_chapter_limit row);
                  Question.question_text := Some (ins_question_text row);
                  Question.answer_text := None;
                  Question.status := Some (ins_status row);
                  Question.created_at := at_;
                  Question.updated_at := at_ |} in
      match questions d !! id with
      | Some _ =>
          (Pg.mk None (Some (Pg.mkError "duplicate key value violates unique constraint")), d)
      | None =>
          (Pg.mk (Some q) None,
           mkDB (<[id := q]> (questions d)) (titles d) (chapter_embeddings d) rest)
      end
  end.

Definition select_single (questionId : string) (d : DB)
  : Pg.Response QuestionWithTitle.t * DB :=
  match questions d !! questionId with
  | Some q => (Pg.mk (Some (with_title d q)) None, d)
  | None => (Pg.mk None (Some no_rows), d)
  end.

Definition select_list (filters : list Filter) (d : DB)
  : Pg.Response (list QuestionWithTitle.t) * DB :=
  let rows := filter (fun q => forallb (matches q) filters = true)
                (snd <$> map_to_list (questions d)) in
  (Pg.mk (Some (with_title d <$> JS.sort newest_first rows)) None, d).

Definition update_single (questionId : string) (u : UpdateQuestion) (d : DB)
  : Pg.Response Question.t * DB :=
  match questions d !! questionId with
  | Some q =>
      (Pg.mk (Some (apply_update u q)) None,
       set_questions (<[questionId := apply_update u q]> (questions d)) d)
  | None => (Pg.mk None (Some no_rows), d)
  end.

Definition delete_row (questionId : string) (d : DB) : Pg.Response unit * DB :=
  (Pg.mk None None, set_questions (delete questionId (questions d)) d).

Definition of_title (title_id : string) (item : EmbeddingRow.t) : bool :=
  match chapter_of item with
  | Some c => String.eqb (Chapter.title_id c) title_id
  | None => false
  end.

Definition select_embeddings (title_id : string) (d : DB)
  : Pg.Response (list EmbeddingRow.t) * DB :=
  (Pg.mk (Some (filter (fun item => of_title title_id item = true) (chapter_embeddings d))) None, d).

(** The client. Whether a call fails is decided by the call alone, which
    describes a run that repeats no call, as one invocation of
    [generateAnswer] or one handler; the failures of calls made later are
    those of another [fault]. *)
Definition client (fault : Event -> Fault) : Supabase DB := {|
  questions_insert row := guarded (fault (QuestionsInsert row)) (insert_row row);
  questions_select_single id := guarded (fault (QuestionsSelectSingle id)) (select_single id);
  questions_select_list fs := guarded (fault (QuestionsSelectList fs)) (select_list fs);
  questions_update id u := guarded (fault (QuestionsUpdate id u)) (update_single id u);
  questions_delete id := guarded (fault (QuestionsDelete id)) (delete_row id);
  chapter_embeddings_select t := guarded (fault (ChapterEmbeddingsSelect t)) (select_embeddings t)
|}.

End Mem.

(* ===================================================================== *)
(** * Vocabulary of the properties *)
(* ===================================================================== *)

(** A double that is a zero of either sign, or NaN. *)
Definition zero_or_nan (x : float) : Prop :=
  match Prim2SF x with
  | S754_zero _ | S754_nan => True
  | _ => False
  end.

Section comparators.
Context {A N : Type} `{JS.Number N} (compareFn : A -> A -> N).

(** [x] may stand before [y]: [compareFn x y] is not greater than zero. *)
Definition keeps (x y : A) : Prop := JS.gt0 (compareFn x y) = false.

(** ECMAScript's consistency of a comparator, on the elements at hand. *)
Definition consistent_on (l : list A) : Prop :=
  (forall x y, In x l -> In y l ->
     JS.gt0 (compareFn x y) = true -> JS.gt0 (compareFn y x) = false)
  /\ (forall x y z, In x l -> In y l -> In z l ->
        keeps x y -> keeps y z -> keeps x z).


End comparators.





(** The boundary test on a chapter: [chapter.order <= (chapter_limit || Infinity)]. *)
Definition within (chapter_limit : option Z) (c : Chapter.t) : bool :=
  le_bound (Chapter.order c) (limit_or_infinity chapter_limit).

(** Every stored embedding is an array or parses as one. *)
Definition parseable (rt : Runtime) (items : list EmbeddingRow.t) : Prop :=
  Forall (fun item => exists v, parse_embedding rt (EmbeddingRow.embedding item) = JS.Ok v)
    items.

(** The two updates [questionsService] issues. *)
Definition status_write (rt : Runtime) (questionId : string) (st : Status) : Event :=
  QuestionsUpdate questionId
    {| upd_answer_text := None; upd_status := Some st; upd_updated_at := now_iso rt |}.

Definition answer_write (rt : Runtime) (questionId answerText : string) : Event :=
  QuestionsUpdate questionId
    {| upd_answer_text := Some answerText; upd_status := Some answered;
       upd_updated_at := now_iso rt |}.

Section invocations.
Context {DB : Type} `{!Supabase DB}.

(** The store after the recorded calls have been made on it, in order. *)
Definition replay_call (d : DB) (ev : Event) : DB :=
  match ev with
  | QuestionsInsert q => snd (questions_insert q d)
  | QuestionsSelectSingle questionId => snd (questions_select_single questionId d)
  | QuestionsSelectList filters => snd (questions_select_list filters d)
  | QuestionsUpdate questionId u => snd (questions_update questionId u d)
  | QuestionsDelete questionId => snd (questions_delete questionId d)
  | ChapterEmbeddingsSelect title_id => snd (chapter_embeddings_select title_id d)
  | HuggingFacePost _ => d
  | ChatCompletionsCreate _ => d
  end.

Definition replay (tr : list Event) (d : DB) : DB := fold_left replay_call tr d.

(** [prompt] was assembled in the invocation that starts in [d0]: from the
    question the store returned for [questionId] and from the rows it
    returned for the question's title. *)
Definition Assembled (rt : Runtime) (questionId : string) (d0 : DB) (prompt : string) : Prop :=
  exists response data fetched items chaptersWithEmbeddings questionEmbedding,
    fst (questions_select_single questionId d0) = JS.Ok response
    /\ Pg.data response = Some data
    /\ fst (chapter_embeddings_select (Question.title_id (QuestionWithTitle.row data))
              (snd (questions_select_single questionId d0))) = JS.Ok fetched
    /\ Pg.data fetched = Some items
    /\ forEach_push rt (Question.chapter_limit (QuestionWithTitle.row data)) items []
       = JS.Ok chaptersWithEmbeddings
    /\ prompt
       = prompt_of
           (contextText_of
              (relevantChapters_of (map (score questionEmbedding) chaptersWithEmbeddings)))
           (default "" (Question.question_text (QuestionWithTitle.row data)))
           (Question.chapter_limit (QuestionWithTitle.row data)).

(** The calls one invocation of [generateAnswer] makes, with its result. *)
Inductive Path (rt : Runtime) (questionId : string) (d0 : DB)
  : JS.Exc string -> list Event -> Prop :=
| NotLoaded e :
    Path rt questionId d0 (JS.Throw e)
      [QuestionsSelectSingle questionId; status_write rt questionId failed]
| NotScored title_id e :
    Path rt questionId d0 (JS.Throw e)
      [QuestionsSelectSingle questionId; ChapterEmbeddingsSelect title_id;
       status_write rt questionId failed]
| NotPrompted title_id question_text e :
    Path rt questionId d0 (JS.Throw e)
      [QuestionsSelectSingle questionId; ChapterEmbeddingsSelect title_id;
       HuggingFacePost question_text; status_write rt questionId failed]
| NotAnswered title_id question_text prompt e :
    Assembled rt questionId d0 prompt ->
    chat_completions_create rt prompt = JS.Throw e
    \/ (exists content, chat_completions_create rt prompt = JS.Ok content
                        /\ truthy_string content = false
                        /\ e = "No answer generated by AI") ->
    Path rt questionId d0 (JS.Throw e)
      [QuestionsSelectSingle questionId; ChapterEmbeddingsSelect title_id;
       HuggingFacePost question_text; status_write rt questionId pending;
       ChatCompletionsCreate prompt; status_write rt questionId failed]
| Answered title_id question_text prompt answer :
    Assembled rt questionId d0 prompt ->
    chat_completions_create rt prompt = JS.Ok (Some answer) ->
    answer <> "" ->
    Path rt questionId d0 (JS.Ok answer)
      [QuestionsSelectSingle questionId; ChapterEmbeddingsSelect title_id;
       HuggingFacePost question_text; status_write rt questionId pending;
       ChatCompletionsCreate prompt; answer_write rt questionId answer;
       status_write rt questionId answered].

End invocations.

(** Calls to the vector store and to the two model providers. *)
Definition external_call (ev : Event) : Prop :=
  match ev with
  | ChapterEmbeddingsSelect _ | HuggingFacePost _ | ChatCompletionsCreate _ => True
  | _ => False
  end.

(** The order of calls as claim C3 words it: the pending write comes before
    every external call. *)
Definition pending_before_external (rt : Runtime) (questionId : string)
    (tr : list Event) : Prop :=
  forall pre ev post,
    tr = pre ++ ev :: post -> external_call ev ->
    In (status_write rt questionId pending) pre.

(** Claim C4's words: no write to the question is attempted. *)
Definition no_write_attempted (tr : list Event) : Prop :=
  forall questionId u, ~ In (QuestionsUpdate questionId u) tr.

Section adapter.
Context {DB : Type} `{!Supabase DB}.

(** PostgREST's contract for [.single()]: a response without an error
    carries the row. *)
Definition single_row_contract : Prop :=
  (forall d row response,
     fst (questions_insert row d) = JS.Ok response ->
     Pg.error response = None -> is_Some (Pg.data response))
  /\ (forall d questionId response,
        fst (questions_select_single questionId d) = JS.Ok response ->
        Pg.error response = None -> is_Some (Pg.data response))
  /\ (forall d questionId u response,
        fst (questions_update questionId u d) = JS.Ok response ->
        Pg.error response = None -> is_Some (Pg.data response)).

(** What a service operation makes of the store's answer to its query: it
    returns and does not throw; a rejected query, or one resolved with an
    error, gives [success = false] with an error message; any other gives
    [success = true] with the data [carried], present when [requested]. *)
Definition adapts {A T : Type} (operation : Run.M DB (ApiResponse.t A))
    (answer : JS.Exc (Pg.Response T)) (carried : Pg.Response T -> option A)
    (requested : bool) (s : Run.St DB) : Prop :=
  exists r s',
    operation s = (JS.Ok r, s')
    /\ match answer with
       | JS.Throw _ =>
           ApiResponse.success r = false /\ is_Some (ApiResponse.error r)
       | JS.Ok response =>
           match Pg.error response with
           | Some e =>
               ApiResponse.success r = false
               /\ ApiResponse.error r = Some (Pg.message e)
           | None =>
               ApiResponse.success r = true
               /\ ApiResponse.data r = carried response
               /\ (requested = true -> is_Some (ApiResponse.data r))
           end
       end.

End adapter.

(** The context in the words of the specification: each chapter as
    "Chapter <order>: <name>", a newline and the content; consecutive
    chapters joined by a blank line. *)
Module Specified.

Definition newline : string := String (ascii_of_nat 10) EmptyString.

Definition chapter (order : Z) (name content : string) : string :=
  "Chapter " +:+ pretty order +:+ ": " +:+ name +:+ newline +:+ content.

Definition context (chapters : list (Z * string * string)) : string :=
  String.concat (newline +:+ newline)
    (map (fun '(order, name, content) => chapter order name content) chapters).

End Specified.

(** The chapter [c] has the order, the non-empty name and the content of
    the triple. *)
Definition complete (c : Scored.t) (fields : Z * string * string) : Prop :=
  let '(order, name, content) := fields in
  Scored.order c = Some order
  /\ Scored.name c = Some name /\ name <> ""
  /\ Scored.content c = Some content.

(** Claim C1's words: the prompt holds the content of no fetched chapter
    whose order is greater than the chapter limit. *)
Definition spoiler_free (chapter_limit : Z) (items : list EmbeddingRow.t)
    (prompt : string) : Prop :=
  forall item chapter content,
    In item items -> chapter_of item = Some chapter ->
    Chapter.content chapter = Some content ->
    chapter_limit < JS.num (Chapter.order chapter) ->
    String.index 0 content prompt = None.

(** Chapters in narrative order. *)
Definition ascending (l : list Scored.t) : Prop :=
  StronglySorted (fun x y => JS.num (Scored.order x) <= JS.num (Scored.order y)) l.

(* ===================================================================== *)
(** * Sample data *)
(* ===================================================================== *)

Module Sample.

Definition scored (order : Z) (similarity : float) : Scored.t :=
  {| Scored.id := "c" +:+ pretty order;
     Scored.name := Some ("Part " +:+ pretty order);
     Scored.order := Some order;
     Scored.content := Some ("text of " +:+ pretty order);
     Scored.title_id := "t1";
     Scored.similarity := similarity |}.

(** Two candidates of equal similarity, the later chapter fetched first. *)
Definition tied : list Scored.t := [scored 2 0.5%float; scored 1 0.5%float].

(** Seven candidates of distinct similarity. *)
Definition seven : list Scored.t :=
  [scored 1 0.25%float; scored 2 0.75%float; scored 3 0.5%float; scored 4 0.125%float;
   scored 5 1%float; scored 6 (-0.5)%float; scored 7 0%float].

Definition chapter (order : Z) (content : string) : Chapter.t :=
  {| Chapter.id := "c" +:+ pretty order;
     Chapter.title_id := "t1";
     Chapter.order := Some order;
     Chapter.name := Some ("Part " +:+ pretty order);
     Chapter.content := Some content |}.

(** Five chapters of one title, fetched in no particular order; the fourth
    gives the ending away. *)
Definition rows : list EmbeddingRow.t :=
  [ EmbeddingRow.mk (EmbeddingArray [1%float; 0%float]) (ChaptersObject (chapter 2 "The storm"));
    EmbeddingRow.mk (EmbeddingArray [1%float; 1%float])
      (ChaptersObject (chapter 4 "The gardener is the murderer"));
    EmbeddingRow.mk (EmbeddingArray [0%float; 1%float]) (ChaptersArray [chapter 1 "The arrival"]);
    EmbeddingRow.mk (EmbeddingArray [2%float; 1%float]) (ChaptersObject (chapter 3 "The dinner"));
    EmbeddingRow.mk (EmbeddingArray [1%float; 2%float]) (ChaptersObject (chapter 5 "The trial")) ].

Definition runtime : Runtime :=
  {| now_iso := "2025-06-01T12:00:00.000Z";
     days_ago_iso := fun _ => JS.Ok "2025-05-25T12:00:00.000Z";
     JSON_parse := fun _ => None;
     axios_post := fun _ => JS.Ok (Some [1%float; 0%float]);
     chat_completions_create := fun _ => JS.Ok (Some "Nobody knows yet.") |}.

(** A provider that answers with nothing. *)
Definition silent : Runtime :=
  {| now_iso := now_iso runtime;
     days_ago_iso := days_ago_iso runtime;
     JSON_parse := JSON_parse runtime;
     axios_post := axios_post runtime;
     chat_completions_create := fun _ => JS.Ok (Some "") |}.

(** A question of a reader who has finished chapter 3, left failed by an
    earlier attempt. *)
Definition question : Question.t :=
  {| Question.id := "q1";
     Question.user_id := "u1";
     Question.title_id := "t1";
     Question.chapter_limit := Some 3;
     Question.question_text := Some "Who broke the vase?";
     Question.answer_text := None;
     Question.status := Some failed;
     Question.created_at := "2025-05-30T09:00:00.000Z";
     Question.updated_at := "2025-05-30T09:00:05.000Z" |}.

Definition store : Mem.DB :=
  Mem.mkDB {[ "q1" := question ]} ∅ rows [].

Definition start : Run.St Mem.DB := Run.mkSt store [].

Definition no_fault : Event -> Mem.Fault := fun _ => Mem.NoFault.

(** The store refuses the update that carries the answer, and no other. *)
Definition answer_write_fails : Event -> Mem.Fault :=
  fun ev =>
    match ev with
    | QuestionsUpdate _ u =>
        match upd_answer_text u with
        | Some _ => Mem.Failing "connection lost"
        | None => Mem.NoFault
        end
    | _ => Mem.NoFault
    end.

(** The calls of the sample invocation under the silent provider, and the
    prompt it sends. *)
Definition silent_trace : list Event :=
  Eval vm_compute in
    Run.trace (snd (aiService.generateAnswer (Supabase0 := Mem.client no_fault)
                      silent "q1" start)).

Definition prompt : string :=
  Eval vm_compute in
    match silent_trace with
    | [_; _; _; _; ChatCompletionsCreate p; _] => p
    | _ => ""
    end.

Definition within_three : list Candidate.t :=
  Eval vm_compute in
    match forEach_push runtime (Some 3) rows [] with
    | JS.Ok out => out
    | JS.Throw _ => []
    end.

End Sample.

(* ===================================================================== *)
(** * services/ai.service.ts: the invocation as a function of what it reads *)
(* ===================================================================== *)

(** What [generateAnswer] returns or throws, and the calls it makes, read
    off its text as a function of the answers of the store's two reads and
    of the two providers. The answers of the store to the three writes do
    not occur. *)
Module Plan.

(** [catch (error) { await updateQuestionStatus(questionId, "failed"); throw error }] *)
Definition caught (rt : Runtime) (questionId : string) (calls : list Event) (e : string)
  : JS.Exc string * list Event :=
  (JS.Throw e, calls ++ [status_write rt questionId failed]).

(** From the call to the generation provider on. *)
Definition generate (rt : Runtime) (questionId : string) (calls : list Event)
    (prompt : string) : JS.Exc string * list Event :=
  let calls := calls ++ [status_write rt questionId pending; ChatCompletionsCreate prompt] in
  match chat_completions_create rt prompt with
  | JS.Throw e => caught rt questionId calls e
  | JS.Ok answer =>
      if negb (truthy_string answer) then
        caught rt questionId calls "No answer generated by AI"
      else
        (JS.Ok (default "" answer),
         calls ++ [answer_write rt questionId (default "" answer);
                   status_write rt questionId answered])
  end.

(** From the rows of the vector store on. *)
Definition score_and_generate (rt : Runtime) (questionId : string) (calls : list Event)
    (chapter_limit : option Z) (question_text : option string)
    (embeddingsData : list EmbeddingRow.t) : JS.Exc string * list Event :=
  match forEach_push rt chapter_limit embeddingsData [] with
  | JS.Throw e => caught rt questionId calls e
  | JS.Ok chaptersWithEmbeddings =>
      if (length chaptersWithEmbeddings =? 0)%nat then
        caught rt questionId calls
          ("No chapters available within chapter limit: " +:+ JS.show_num chapter_limit)
      else if negb (truthy_string question_text) then
        caught rt questionId calls "Question text is null or empty"
      else
        let question_text := default "" question_text in
        let calls := calls ++ [HuggingFacePost question_text] in
        match axios_post rt question_text with
        | JS.Ok (Some questionEmbedding) =>
            let relevantChapters :=
              relevantChapters_of (map (score questionEmbedding) chaptersWithEmbeddings) in
            if (length relevantChapters =? 0)%nat then
              caught rt questionId calls
                "No relevant chapters found based on semantic similarity."
            else
              generate rt questionId calls
                (prompt_of (contextText_of relevantChapters) question_text chapter_limit)
        | _ =>
            caught rt questionId calls "Failed to generate embedding using Hugging Face"
        end
  end.

(** From the loaded question on: [fetch] answers the vector-store read. *)
Definition fetch_and_score (rt : Runtime) (questionId : string) (calls : list Event)
    (data : QuestionWithTitle.t)
    (fetch : string -> JS.Exc (Pg.Response (list EmbeddingRow.t)))
  : JS.Exc string * list Event :=
  let title_id := Question.title_id (QuestionWithTitle.row data) in
  let chapter_limit := Question.chapter_limit (QuestionWithTitle.row data) in
  let question_text := Question.question_text (QuestionWithTitle.row data) in
  let calls := calls ++ [ChapterEmbeddingsSelect title_id] in
  match fetch title_id with
  | JS.Throw e => caught rt questionId calls e
  | JS.Ok fetched =>
      match Pg.error fetched, Pg.data fetched with
      | None, Some (item0 :: items) =>
          score_and_generate rt questionId calls chapter_limit question_text (item0 :: items)
      | error, _ =>
          caught rt questionId calls
            ("Failed to fetch chapter embeddings: "
               +:+ JS.show_optional (Pg.message <$> error))
      end
  end.

(** The whole invocation: [loaded] answers the read of the question. *)
Definition invocation (rt : Runtime) (questionId : string)
    (loaded : JS.Exc (Pg.Response QuestionWithTitle.t))
    (fetch : string -> JS.Exc (Pg.Response (list EmbeddingRow.t)))
  : JS.Exc string * list Event :=
  let calls := [QuestionsSelectSingle questionId] in
  match loaded with
  | JS.Throw _ =>
      caught rt questionId calls "Question not found: Failed to fetch question"
  | JS.Ok response =>
      match Pg.error response, Pg.data response with
      | Some error, _ =>
          caught rt questionId calls ("Question not found: " +:+ Pg.message error)
      | None, None =>
          caught rt questionId calls "Question not found: undefined"
      | None, Some data =>
          fetch_and_score rt questionId calls data fetch
      end
  end.

End Plan.

(** The columns of a question that [generateAnswer] reads. *)
Definition same_reading (q q' : Question.t) : Prop :=
  Question.title_id q' = Question.title_id q
  /\ Question.chapter_limit q' = Question.chapter_limit q
  /\ Question.question_text q' = Question.question_text q.

(** The in-memory store [d'] differs from [d] at most in the answer text,
    the status and the update time of the question [questionId]. *)
Definition touched_only (questionId : string) (d d' : Mem.DB) : Prop :=
  Mem.titles d' = Mem.titles d
  /\ Mem.chapter_embeddings d' = Mem.chapter_embeddings d
  /\ Mem.uuids d' = Mem.uuids d
  /\ (forall id, id <> questionId -> Mem.questions d' !! id = Mem.questions d !! id)
  /\ match Mem.questions d !! questionId with
     | None => Mem.questions d' !! questionId = None
     | Some q =>
         exists q',
           Mem.questions d' !! questionId = Some q'
           /\ Question.id q' = Question.id q
           /\ Question.user_id q' = Question.user_id q
           /\ Question.created_at q' = Question.created_at q
           /\ same_reading q q'
     end.

(* ===================================================================== *)
(** * routes/questions.route.ts *)
(* ===================================================================== *)

(** The handlers behind [authenticateUser], with what they read of the
    request and what they send. *)
Module Http.

(** [req.query], as far as the handlers read it. *)
Record Query : Type := mkQuery {
  title_id : option string;
  days : option string
}.

(** [req]: the id of [req.user] ([None] when the middleware has set no
    user; a user it sets carries an id), the parameter of the route, the
    query and the body. *)
Record Request (Body : Type) : Type := mkRequest {
  user : option string;
  param : string;
  query : Query;
  body : Body
}.
Arguments mkRequest {Body}.
Arguments user {Body}.
Arguments param {Body}.
Arguments query {Body}.
Arguments body {Body}.

(** The JSON a handler sends. *)
Inductive Payload (A : Type) : Type :=
| Failure (error : string)
| Service (result : ApiResponse.t A)
| Lookup (questionResult : ApiResponse.t QuestionWithTitle.t)
| Generated (answer : string).
Arguments Failure {A}.
Arguments Service {A}.
Arguments Lookup {A}.
Arguments Generated {A}.

(** [res.status(code).json(payload)] *)
Record Reply (A : Type) : Type := mkReply {
  code : Z;
  payload : Payload A
}.
Arguments mkReply {A}.
Arguments code {A}.
Arguments payload {A}.

(** The verdicts of the Joi schemas: the message of the first error, or
    nothing; for the schemas of a value the handler goes on to read from the
    request, that value. [parseInt] yields [None] for [NaN]. *)
Record Joi (Body : Type) : Type := mkJoi {
  questionIdSchema : string -> option string;
  userIdSchema : string -> option string;
  updateAnswerSchema : Body -> string + string;
  updateStatusSchema : Body -> string + Status;
  statusQuerySchema : string -> string + Status;
  daysQuerySchema : Query -> option string;
  titleQuerySchema : Query -> option string;
  parseInt : option string -> option Z
}.
Arguments questionIdSchema {Body}.
Arguments userIdSchema {Body}.
Arguments updateAnswerSchema {Body}.
Arguments updateStatusSchema {Body}.
Arguments statusQuerySchema {Body}.
Arguments daysQuerySchema {Body}.
Arguments titleQuerySchema {Body}.
Arguments parseInt {Body}.

End Http.

Module questionsRouter.
Section handlers.
Context {DB : Type} `{!Supabase DB} {Body : Type} (rt : Runtime) (joi : Http.Joi Body).

(** [catch (error) { return res.status(500).json({ success: false, error: "Internal server error" }) }] *)
Definition internal_error {A : Type} (_ : string) : Run.M DB (Http.Reply A) :=
  Run.ret (Http.mkReply 500 (Http.Failure "Internal server error")).

(** [user.id] for [const user = (req as any).user]. *)
Definition user_id (req : Http.Request Body) : Run.M DB string :=
  match Http.user req with
  | Some id => Run.ret id
  | None => Run.throw "Cannot read properties of undefined (reading 'id')"
  end.

(** [result.data?.user_id !== user.id] *)
Definition not_owner (result : ApiResponse.t QuestionWithTitle.t) (id : string) : bool :=
  match ApiResponse.data result with
  | Some data => negb (String.eqb (Question.user_id (QuestionWithTitle.row data)) id)
  | None => true
  end.

(** [res.status(result.success ? 200 : 400).json(result)] *)
Definition send {A : Type} (result : ApiResponse.t A) : Run.M DB (Http.Reply A) :=
  Run.ret (Http.mkReply (if ApiResponse.success result then 200 else 400)
             (Http.Service result)).

(** POST /:id/answer *)
Definition post_answer (req : Http.Request Body) : Run.M DB (Http.Reply string) :=
  Run.try_catch
    (let* answer := aiService.generateAnswer rt (Http.param req) in
     Run.ret (Http.mkReply 200 (Http.Generated answer)))
    (fun message => Run.ret (Http.mkReply 500 (Http.Failure message))).

(** GET /user/:userId *)
Definition get_user (req : Http.Request Body)
  : Run.M DB (Http.Reply (list QuestionWithTitle.t)) :=
  Run.try_catch
    (match Http.userIdSchema joi (Http.param req) with
     | Some message => Run.ret (Http.mkReply 400 (Http.Failure message))
     | None =>
         match Http.titleQuerySchema joi (Http.query req) with
         | Some message => Run.ret (Http.mkReply 400 (Http.Failure message))
         | None =>
             let* id := user_id req in
             if negb (String.eqb id (Http.param req)) then
               Run.ret (Http.mkReply 403 (Http.Failure "Access denied"))
             else
               let* result := questionsService.getUserQuestions (Http.param req)
                                (Http.title_id (Http.query req)) in
               send result
         end
     end)
    internal_error.

(** GET /my *)
Definition get_my (req : Http.Request Body)
  : Run.M DB (Http.Reply (list QuestionWithTitle.t)) :=
  Run.try_catch
    (match Http.titleQuerySchema joi (Http.query req) with
     | Some message => Run.ret (Http.mkReply 400 (Http.Failure message))
     | None =>
         let* id := user_id req in
         let* result := questionsService.getUserQuestions id
                          (Http.title_id (Http.query req)) in
         send result
     end)
    internal_error.

(** GET /status/:status *)
Definition get_status (req : Http.Request Body)
  : Run.M DB (Http.Reply (list QuestionWithTitle.t)) :=
  Run.try_catch
    (match Http.statusQuerySchema joi (Http.param req) with
     | inl message => Run.ret (Http.mkReply 400 (Http.Failure message))
     | inr status =>
         let* id := user_id req in
         let* result := questionsService.getQuestionsByStatus id status in
         send result
     end)
    internal_error.

(** [parseInt(req.query.days as string) || 7] *)
Definition days_or_week (req : Http.Request Body) : Z :=
  match Http.parseInt joi (Http.days (Http.query req)) with
  | Some n => if n =? 0 then 7 else n
  | None => 7
  end.

(** GET /recent *)
Definition get_recent (req : Http.Request Body)
  : Run.M DB (Http.Reply (list QuestionWithTitle.t)) :=
  Run.try_catch
    (match Http.daysQuerySchema joi (Http.query req) with
     | Some message => Run.ret (Http.mkReply 400 (Http.Failure message))
     | None =>
         let* id := user_id req in
         let* result := questionsService.getRecentQuestions rt id (Some (days_or_week req)) in
         send result
     end)
    internal_error.

(** GET /title/:titleId *)
Definition get_title (req : Http.Request Body)
  : Run.M DB (Http.Reply (list QuestionWithTitle.t)) :=
  Run.try_catch
    (let titleId := Http.param req in
     if String.eqb titleId "" then
       Run.ret (Http.mkReply 400 (Http.Failure "Title ID is required"))
     else
       let* id := user_id req in
       let* result := questionsService.getQuestionsByTitle id titleId in
       send result)
    internal_error.

(** GET /:questionId *)
Definition get_question (req : Http.Request Body)
  : Run.M DB (Http.Reply QuestionWithTitle.t) :=
  Run.try_catch
    (match Http.questionIdSchema joi (Http.param req) with
     | Some message => Run.ret (Http.mkReply 400 (Http.Failure message))
     | None =>
         let* result := questionsService.getQuestionById (Http.param req) in
         if negb (ApiResponse.success result) then
           Run.ret (Http.mkReply 404 (Http.Service result))
         else
           let* id := user_id req in
           if not_owner result id then
             Run.ret (Http.mkReply 403 (Http.Failure "Access denied"))
           else
             Run.ret (Http.mkReply 200 (Http.Service result))
     end)
    internal_error.

(** PUT /:questionId/answer *)
Definition put_answer (req : Http.Request Body) : Run.M DB (Http.Reply Question.t) :=
  Run.try_catch
    (match Http.questionIdSchema joi (Http.param req) with
     | Some message => Run.ret (Http.mkReply 400 (Http.Failure message))
     | None =>
         match Http.updateAnswerSchema joi (Http.body req) with
         | inl message => Run.ret (Http.mkReply 400 (Http.Failure message))
         | inr answer_text =>
             let* questionResult := questionsService.getQuestionById (Http.param req) in
             if negb (ApiResponse.success questionResult) then
               Run.ret (Http.mkReply 404 (Http.Lookup questionResult))
             else
               let* id := user_id req in
               if not_owner questionResult id then
                 Run.ret (Http.mkReply 403 (Http.Failure "Access denied"))
               else
                 let* result := questionsService.updateQuestionAnswer rt (Http.param req)
                                  answer_text in
                 send result
         end
     end)
    internal_error.

(** PUT /:questionId/status *)
Definition put_status (req : Http.Request Body) : Run.M DB (Http.Reply Question.t) :=
  Run.try_catch
    (match Http.questionIdSchema joi (Http.param req) with
     | Some message => Run.ret (Http.mkReply 400 (Http.Failure message))
     | None =>
         match Http.updateStatusSchema joi (Http.body req) with
         | inl message => Run.ret (Http.mkReply 400 (Http.Failure message))
         | inr status =>
             let* questionResult := questionsService.getQuestionById (Http.param req) in
             if negb (ApiResponse.success questionResult) then
               Run.ret (Http.mkReply 404 (Http.Lookup questionResult))
             else
               let* id := user_id req in
               if not_owner questionResult id then
                 Run.ret (Http.mkReply 403 (Http.Failure "Access denied"))
               else
                 let* result := questionsService.updateQuestionStatus rt (Http.param req)
                                  status in
                 send result
         end
     end)
    internal_error.

(** DELETE /:questionId *)
Definition delete_question (req : Http.Request Body) : Run.M DB (Http.Reply unit) :=
  Run.try_catch
    (match Http.questionIdSchema joi (Http.param req) with
     | Some message => Run.ret (Http.mkReply 400 (Http.Failure message))
     | None =>
         let* questionResult := questionsService.getQuestionById (Http.param req) in
         if negb (ApiResponse.success questionResult) then
           Run.ret (Http.mkReply 404 (Http.Lookup questionResult))
         else
           let* id := user_id req in
           if not_owner questionResult id then
             Run.ret (Http.mkReply 403 (Http.Failure "Access denied"))
           else
             let* result := questionsService.deleteQuestion (Http.param req) in
             send result
     end)
    internal_error.

End handlers.
End questionsRouter.

(** A call that changes the table of questions. *)
Definition is_write (ev : Event) : Prop :=
  match ev with
  | QuestionsInsert _ | QuestionsUpdate _ _ | QuestionsDelete _ => True
  | _ => False
  end.

(** The question a write is addressed to. *)
Definition target (ev : Event) : option string :=
  match ev with
  | QuestionsUpdate questionId _ | QuestionsDelete questionId => Some questionId
  | _ => None
  end.

Section ownership.
Context {DB : Type} `{!Supabase DB}.

(** The store in state [d] returns the question [questionId] as one of the
    user [id]. *)
Definition owned_by (id questionId : string) (d : DB) : Prop :=
  exists response data,
    fst (questions_select_single questionId d) = JS.Ok response
    /\ Pg.error response = None
    /\ Pg.data response = Some data
    /\ Question.user_id (QuestionWithTitle.row data) = id.

(** A run of a handler that writes only after the store has returned the
    question of the route as one of the requesting user: it has made one
    read and then at most one write, addressed to that question. *)
Definition owner_checked {Body A : Type} (req : Http.Request Body) (s : Run.St DB)
    (run : JS.Exc (Http.Reply A) * Run.St DB) : Prop :=
  exists reply calls,
    fst run = JS.Ok reply
    /\ Run.trace (snd run) = Run.trace s ++ calls
    /\ (forall ev, In ev calls -> is_write ev ->
          calls = [QuestionsSelectSingle (Http.param req); ev]
          /\ target ev = Some (Http.param req)
          /\ (exists id, Http.user req = Some id /\ owned_by id (Http.param req) (Run.db s))
          /\ (Http.code reply = 200 \/ Http.code reply = 400))
    /\ (~ Exists is_write calls ->
          Run.db (snd run) = replay calls (Run.db s)
          /\ (calls = [] \/ calls = [QuestionsSelectSingle (Http.param req)])).

End ownership.

(** The handler has sent a reply with one of the codes the router uses, and
    the code 500 only to a request without a user. *)
Definition answers_request {DB Body A : Type} (req : Http.Request Body)
    (run : JS.Exc (Http.Reply A) * Run.St DB) : Prop :=
  exists reply,
    fst run = JS.Ok reply
    /\ In (Http.code reply) [200; 400; 403; 404; 500]
    /\ (Http.code reply = 500 -> Http.user req = None).

(** A list operation of [questionsService] has read the questions once,
    with [filters], and reports success only with the rows the store
    returned. *)
Definition listed_with {DB : Type} `{!Supabase DB} (filters : list Filter) (s : Run.St DB)
    (run : JS.Exc (ApiResponse.t (list QuestionWithTitle.t)) * Run.St DB) : Prop :=
  exists r,
    run = (JS.Ok r,
           Run.mkSt (replay_call (Run.db s) (QuestionsSelectList filters))
             (Run.trace s ++ [QuestionsSelectList filters]))
    /\ (ApiResponse.success r = true ->
        exists response,
          fst (questions_select_list filters (Run.db s)) = JS.Ok response
          /\ Pg.error response = None
          /\ ApiResponse.data r = Some (default [] (Pg.data response))).

(** Rows of the in-memory store [d] that belong to the user [id]. *)
Definition own_rows (id : string) (d : Mem.DB) (rows : list QuestionWithTitle.t) : Prop :=
  Forall (fun row =>
            Question.user_id (QuestionWithTitle.row row) = id
            /\ exists key, Mem.questions d !! key = Some (QuestionWithTitle.row row))
         rows.

(** A reply with code 200 carries a successful service result whose rows
    belong to the requesting user. *)
Definition serves_own_rows {Body A : Type} (rows_of : A -> list QuestionWithTitle.t)
    (req : Http.Request Body) (d : Mem.DB)
    (run : JS.Exc (Http.Reply A) * Run.St Mem.DB) : Prop :=
  forall reply,
    fst run = JS.Ok reply -> Http.code reply = 200 ->
    exists id result data,
      Http.user req = Some id
      /\ Http.payload reply = Http.Service result
      /\ ApiResponse.success result = true
      /\ ApiResponse.data result = Some data
      /\ own_rows id d (rows_of data).

(** The status an invocation writes last. *)
Definition final_status {A : Type} (result : JS.Exc A) : Status :=
  match result with
  | JS.Ok _ => answered
  | JS.Throw _ => failed
  end.

(* ===================================================================== *)
(** * Further sample data *)
(* ===================================================================== *)

Module Scenario.

(** A question stored with an empty text. *)
Definition blank : Question.t :=
  {| Question.id := "q2";
     Question.user_id := "u1";
     Question.title_id := "t1";
     Question.chapter_limit := Some 3;
     Question.question_text := Some "";
     Question.answer_text := None;
     Question.status := Some pending;
     Question.created_at := "2025-05-31T09:00:00.000Z";
     Question.updated_at := "2025-05-31T09:00:00.000Z" |}.

(** The sample question after an earlier invocation has answered it. *)
Definition answered_before : Question.t :=
  {| Question.id := "q1";
     Question.user_id := "u1";
     Question.title_id := "t1";
     Question.chapter_limit := Some 3;
     Question.question_text := Some "Who broke the vase?";
     Question.answer_text := Some "An earlier answer.";
     Question.status := Some answered;
     Question.created_at := "2025-05-30T09:00:00.000Z";
     Question.updated_at := "2025-05-30T09:00:07.000Z" |}.

(** A question of another reader. *)
Definition of_another : Question.t :=
  {| Question.id := "q3";
     Question.user_id := "u2";
     Question.title_id := "t1";
     Question.chapter_limit := Some 5;
     Question.question_text := Some "Who is the gardener?";
     Question.answer_text := None;
     Question.status := Some pending;
     Question.created_at := "2025-05-29T09:00:00.000Z";
     Question.updated_at := "2025-05-29T09:00:00.000Z" |}.

Definition store : Mem.DB :=
  Mem.mkDB {[ "q1" := Sample.question; "q2" := blank; "q3" := of_another ]} ∅ Sample.rows [].

Definition start : Run.St Mem.DB := Run.mkSt store [].

Definition answered_store : Mem.DB :=
  Mem.mkDB {[ "q1" := answered_before ]} ∅ Sample.rows [].

(** The embedding provider cannot be reached. *)
Definition offline : Runtime :=
  {| now_iso := now_iso Sample.runtime;
     days_ago_iso := days_ago_iso Sample.runtime;
     JSON_parse := JSON_parse Sample.runtime;
     axios_post := fun _ => JS.Throw "connect ECONNREFUSED";
     chat_completions_create := chat_completions_create Sample.runtime |}.

(** Schemas that accept the sample requests. *)
Definition joi : Http.Joi unit :=
  {| Http.questionIdSchema := fun _ => None;
     Http.userIdSchema := fun _ => None;
     Http.updateAnswerSchema := fun _ => inr "The butler.";
     Http.updateStatusSchema := fun _ => inr answered;
     Http.statusQuerySchema := fun _ => inr pending;
     Http.daysQuerySchema := fun _ => None;
     Http.titleQuerySchema := fun _ => None;
     Http.parseInt := fun _ => None |}.

(** The reader [u2] addresses the question [q1] of the reader [u1]. *)
Definition by_another : Http.Request unit :=
  Http.mkRequest (Some "u2") "q1" (Http.mkQuery None None) tt.

(** A question stored with the chapter limit 0. *)
Definition unbounded : Question.t :=
  {| Question.id := "q0";
     Question.user_id := "u1";
     Question.title_id := "t1";
     Question.chapter_limit := Some 0;
     Question.question_text := Some "Who did it?";
     Question.answer_text := None;
     Question.status := Some pending;
     Question.created_at := "2025-05-28T09:00:00.000Z";
     Question.updated_at := "2025-05-28T09:00:00.000Z" |}.

Definition unbounded_start : Run.St Mem.DB :=
  Run.mkSt (Mem.mkDB {[ "q0" := unbounded ]} ∅ Sample.rows []) [].

End Scenario.

(* ===================================================================== *)
(** * Properties *)
(* ===================================================================== *)

(** ** Doubles: the few facts of IEEE arithmetic the vector code needs *)

Module FloatFacts.

Lemma mul_comm (x y : float) : (x * y)%float = (y * x)%float.
Proof.
  apply Prim2SF_inj. rewrite !mul_spec. unfold SF64mul, SFmul.
  destruct (Prim2SF x) as [sx|sx| |sx mx ex], (Prim2SF y) as [sy|sy| |sy my ey];
    try reflexivity; rewrite 1?(xorb_comm sx sy); try reflexivity.
  now rewrite (Pos.mul_comm mx my), (Z.add_comm ex ey).
Qed.

Lemma is_nan_of_spec (x : float) : Prim2SF x = S754_nan -> PrimFloat.is_nan x = true.
Proof.
  intros Hx. unfold PrimFloat.is_nan. rewrite FloatAxioms.eqb_spec, Hx. reflexivity.
Qed.

Lemma is_zero_spec (x : float) :
  PrimFloat.is_zero x = true -> exists s, Prim2SF x = S754_zero s.
Proof.
  unfold PrimFloat.is_zero. rewrite FloatAxioms.eqb_spec.
  change (Prim2SF PrimFloat.zero) with (S754_zero false).
  destruct (Prim2SF x) as [s|s| |s m e]; try discriminate; eauto.
  - destruct s; discriminate.
  - destruct s; discriminate.
Qed.

Lemma zero_is_zero_or_nan (x : float) : PrimFloat.is_zero x = true -> zero_or_nan x.
Proof.
  intros [s Hs]%is_zero_spec. unfold zero_or_nan. now rewrite Hs.
Qed.

Lemma nan_is_zero_or_nan : zero_or_nan nan.
Proof. exact I. Qed.

Lemma plus_zero_is_zero_or_nan : zero_or_nan 0%float.
Proof. exact I. Qed.

Lemma mul_zero_or_nan_l (x y : float) : zero_or_nan x -> zero_or_nan (x * y)%float.
Proof.
  unfold zero_or_nan. rewrite mul_spec. unfold SF64mul, SFmul.
  destruct (Prim2SF x), (Prim2SF y); simpl; tauto.
Qed.

Lemma mul_zero_or_nan_r (x y : float) : zero_or_nan y -> zero_or_nan (x * y)%float.
Proof. rewrite mul_comm. apply mul_zero_or_nan_l. Qed.

Lemma add_zero_or_nan (x y : float) :
  zero_or_nan x -> zero_or_nan y -> zero_or_nan (x + y)%float.
Proof.
  unfold zero_or_nan. rewrite add_spec. unfold SF64add, SFadd.
  destruct (Prim2SF x) as [[]|[]| |], (Prim2SF y) as [[]|[]| |]; simpl; tauto.
Qed.

Lemma sqrt_zero_or_nan (x : float) : zero_or_nan x -> zero_or_nan (PrimFloat.sqrt x).
Proof.
  unfold zero_or_nan. rewrite sqrt_spec. unfold SF64sqrt, SFsqrt.
  destruct (Prim2SF x); simpl; tauto.
Qed.

Lemma div_zero_or_nan (x y : float) :
  zero_or_nan x -> zero_or_nan y -> PrimFloat.is_nan (x / y)%float = true.
Proof.
  unfold zero_or_nan. intros Hx Hy. apply is_nan_of_spec.
  rewrite div_spec. unfold SF64div, SFdiv.
  destruct (Prim2SF x), (Prim2SF y); simpl; tauto.
Qed.

End FloatFacts.

(** ** utils/embedding.util.ts: cosineSimilarity *)

Section cosine.
Import FloatFacts.

Lemma index_zero_or_nan (b : list float) (i : nat) :
  zero_vector b -> zero_or_nan (JS.index b i).
Proof.
  unfold JS.index. intros Hb. revert i.
  induction Hb as [|x b Hx Hb IH]; intros [|i]; simpl;
    auto using nan_is_zero_or_nan, zero_is_zero_or_nan.
Qed.

Lemma products_zero_or_nan_l (a b : list float) (i : nat) (acc : float) :
  zero_vector a -> zero_or_nan acc ->
  zero_or_nan (JS.reduce_from (fun sum x j => (sum + x * JS.index b j)%float) i a acc).
Proof.
  intros Ha. revert i acc.
  induction Ha as [|x a Hx Ha IH]; intros i acc Hacc; simpl; [exact Hacc|].
  apply IH, add_zero_or_nan; [exact Hacc|].
  apply mul_zero_or_nan_l, zero_is_zero_or_nan, Hx.
Qed.

Lemma products_zero_or_nan_r (a b : list float) (i : nat) (acc : float) :
  zero_vector b -> zero_or_nan acc ->
  zero_or_nan (JS.reduce_from (fun sum x j => (sum + x * JS.index b j)%float) i a acc).
Proof.
  intros Hb. revert i acc.
  induction a as [|x a IH]; intros i acc Hacc; simpl; [exact Hacc|].
  apply IH, add_zero_or_nan; [exact Hacc|].
  apply mul_zero_or_nan_r, index_zero_or_nan, Hb.
Qed.

Lemma squares_zero_or_nan (a : list float) (i : nat) (acc : float) :
  zero_vector a -> zero_or_nan acc ->
  zero_or_nan (JS.reduce_from (fun sum x (_ : nat) => (sum + x * x)%float) i a acc).
Proof.
  intros Ha. revert i acc.
  induction Ha as [|x a Hx Ha IH]; intros i acc Hacc; simpl; [exact Hacc|].
  apply IH, add_zero_or_nan; [exact Hacc|].
  apply mul_zero_or_nan_l, zero_is_zero_or_nan, Hx.
Qed.

Lemma cosineSimilarity_zero_l (a b : list float) :
  zero_vector a -> PrimFloat.is_nan (cosineSimilarity a b) = true.
Proof.
  intros Ha. unfold cosineSimilarity, JS.reduce.
  apply div_zero_or_nan.
  - apply products_zero_or_nan_l; [exact Ha | exact plus_zero_is_zero_or_nan].
  - apply mul_zero_or_nan_l, sqrt_zero_or_nan, squares_zero_or_nan;
      [exact Ha | exact plus_zero_is_zero_or_nan].
Qed.

Lemma cosineSimilarity_zero_r (a b : list float) :
  zero_vector b -> PrimFloat.is_nan (cosineSimilarity a b) = true.
Proof.
  intros Hb. unfold cosineSimilarity, JS.reduce.
  apply div_zero_or_nan.
  - apply products_zero_or_nan_r; [exact Hb | exact plus_zero_is_zero_or_nan].
  - apply mul_zero_or_nan_r, sqrt_zero_or_nan, squares_zero_or_nan;
      [exact Hb | exact plus_zero_is_zero_or_nan].
Qed.

(** With equal dimensions the indexed reduce is the sum over the pairs. *)
Lemma products_as_pairs (a b : list float) (i : nat) (acc : float) :
  (i + length a)%nat = length b ->
  JS.reduce_from (fun sum x j => (sum + x * JS.index b j)%float) i a acc
  = fold_left (fun s p => (s + fst p * snd p)%float) (combine a (drop i b)) acc.
Proof.
  revert i acc. induction a as [|x a IH]; intros i acc Hlen; simpl; [reflexivity|].
  simpl in Hlen.
  assert (Hi : (i < length b)%nat) by lia.
  destruct (drop i b) as [|y rest] eqn:Hdrop.
  { apply (f_equal length) in Hdrop. rewrite length_drop in Hdrop. simpl in Hdrop. lia. }
  assert (Hy : JS.index b i = y).
  { unfold JS.index. rewrite <- (take_drop i b) at 1.
    rewrite app_nth2; rewrite length_take; [|lia].
    replace (i - i `min` length b)%nat with 0%nat by lia.
    now rewrite Hdrop. }
  assert (Hrest : drop (S i) b = rest).
  { replace (S i) with (i + 1)%nat by lia. rewrite <- drop_drop, Hdrop. reflexivity. }
  simpl. rewrite IH by lia. now rewrite Hy, Hrest.
Qed.

Lemma squares_as_fold (a : list float) (i : nat) (acc : float) :
  JS.reduce_from (fun sum x (_ : nat) => (sum + x * x)%float) i a acc
  = fold_left (fun s x => (s + x * x)%float) a acc.
Proof.
  revert i acc. induction a as [|x a IH]; intros i acc; simpl; [reflexivity|].
  apply IH.
Qed.

Lemma cosineSimilarity_formula (a b : list float) :
  length a = length b ->
  cosineSimilarity a b = (dot a b / (norm a * norm b))%float.
Proof.
  intros Hlen. unfold cosineSimilarity, JS.reduce, dot, norm.
  rewrite products_as_pairs by (simpl; lia).
  now rewrite !squares_as_fold, drop_0.
Qed.

Lemma dot_comm (a b : list float) : dot a b = dot b a.
Proof.
  unfold dot. generalize 0%float as acc. revert b.
  induction a as [|x a IH]; intros [|y b] acc; simpl; try reflexivity.
  now rewrite IH, (mul_comm x y).
Qed.

Lemma cosineSimilarity_sym (a b : list float) :
  length a = length b -> cosineSimilarity a b = cosineSimilarity b a.
Proof.
  intros Hlen.
  rewrite (cosineSimilarity_formula a b), (cosineSimilarity_formula b a) by congruence.
  now rewrite dot_comm, (mul_comm (norm a)).
Qed.

End cosine.

(** C6, as the code computes it: for vectors of equal dimension
    [cosineSimilarity a b] is [dot(a,b) / (|a| * |b|)] in double arithmetic
    and is symmetric; when either vector is a zero vector the result is NaN
    (the quotient 0/0), returned as a value: no exception is raised. *)
Theorem cosineSimilarity_double (a b : list float) :
  length a = length b ->
  cosineSimilarity a b = (dot a b / (norm a * norm b))%float
  /\ cosineSimilarity a b = cosineSimilarity b a
  /\ (zero_vector a \/ zero_vector b ->
      PrimFloat.is_nan (cosineSimilarity a b) = true).
Proof.
  intros Hlen. split; [|split].
  - now apply cosineSimilarity_formula.
  - now apply cosineSimilarity_sym.
  - intros [Ha|Hb]; [now apply cosineSimilarity_zero_l | now apply cosineSimilarity_zero_r].
Qed.

Lemma cosineSimilarity_double_witness :
  cosineSimilarity [0%float; 0%float] [1%float; 5%float]
  = cosineSimilarity [1%float; 5%float] [0%float; 0%float]
  /\ PrimFloat.is_nan (cosineSimilarity [0%float; 0%float] [1%float; 5%float]) = true.
Proof.
  destruct (cosineSimilarity_double [0%float; 0%float] [1%float; 5%float])
    as (_ & Hsym & Hnan); [reflexivity|].
  split; [exact Hsym|].
  apply Hnan. left. repeat constructor.
Defined.

(** C6 as claimed fails on the code: against the zero vector the result is
    NaN, not -1; and for the non-zero vector (1, 5) against itself rounding
    gives 1.0000000000000002, outside [-1, 1]. *)
Lemma cosineSimilarity_claim_fails :
  PrimFloat.is_nan (cosineSimilarity [0%float; 0%float] [1%float; 5%float]) = true
  /\ cosineSimilarity [0%float; 0%float] [1%float; 5%float] <> (-1)%float
  /\ (cosineSimilarity [1%float; 5%float] [1%float; 5%float] <=? 1)%float = false.
Proof.
  split; [vm_compute; reflexivity|]. split; [|vm_compute; reflexivity].
  intros H.
  assert (E : PrimFloat.is_nan (cosineSimilarity [0%float; 0%float] [1%float; 5%float])
              = PrimFloat.is_nan (-1)%float) by (now rewrite H).
  vm_compute in E. discriminate E.
Qed.

(** ** Array.prototype.sort *)

Section sort_facts.
Context {A N : Type} `{JS.Number N} (compareFn : A -> A -> N).

Lemma insert_perm (x : A) (l : list A) : Permutation (JS.insert compareFn x l) (x :: l).
Proof.
  induction l as [|y t IH]; simpl; [reflexivity|].
  destruct (JS.gt0 (compareFn x y)); [|reflexivity].
  rewrite IH. apply perm_swap.
Qed.

Lemma sort_perm (l : list A) : Permutation (JS.sort compareFn l) l.
Proof.
  induction l as [|x t IH]; simpl; [reflexivity|].
  unfold JS.sort in *. simpl. rewrite insert_perm. now constructor.
Qed.

Lemma sort_length (l : list A) : length (JS.sort compareFn l) = length l.
Proof. apply Permutation_length, sort_perm. Qed.

Lemma sort_In (x : A) (l : list A) : In x (JS.sort compareFn l) <-> In x l.
Proof.
  split; apply Permutation_in; [apply sort_perm | symmetry; apply sort_perm].
Qed.

Lemma insert_sorted (x : A) (l : list A) :
  consistent_on compareFn (x :: l) ->
  StronglySorted (keeps compareFn) l -> StronglySorted (keeps compareFn) (JS.insert compareFn x l).
Proof.
  intros [Hasym Htrans] Hs.
  induction Hs as [|y t Hs IH Hy]; simpl.
  - repeat constructor.
  - destruct (JS.gt0 (compareFn x y)) eqn:Hxy.
    + constructor.
      * apply IH.
        -- intros a b Ha Hb. apply Hasym; simpl in *; tauto.
        -- intros a b c Ha Hb Hc. apply Htrans; simpl in *; tauto.
      * rewrite List.Forall_forall. intros z Hz.
        apply (Permutation_in _ (insert_perm x t)) in Hz.
        destruct Hz as [<-|Hz].
        -- apply Hasym; simpl; auto.
        -- rewrite List.Forall_forall in Hy. now apply Hy.
    + constructor; [now constructor|].
      constructor; [exact Hxy|].
      rewrite List.Forall_forall in Hy |- *. intros z Hz.
      apply (Htrans x y z); simpl; auto.
Qed.

Lemma sort_sorted (l : list A) :
  consistent_on compareFn l -> StronglySorted (keeps compareFn) (JS.sort compareFn l).
Proof.
  induction l as [|x t IH]; intros Hc; [constructor|].
  change (JS.sort compareFn (x :: t)) with (JS.insert compareFn x (JS.sort compareFn t)).
  destruct Hc as [Hasym Htrans].
  apply insert_sorted.
  - split.
    + intros a b Ha Hb. apply Hasym.
      * destruct Ha as [->|Ha]; [now left | right; now apply sort_In].
      * destruct Hb as [->|Hb]; [now left | right; now apply sort_In].
    + intros a b c Ha Hb Hc. apply Htrans.
      * destruct Ha as [->|Ha]; [now left | right; now apply sort_In].
      * destruct Hb as [->|Hb]; [now left | right; now apply sort_In].
      * destruct Hc as [->|Hc]; [now left | right; now apply sort_In].
  - apply IH. split.
    + intros a b Ha Hb. apply Hasym; now right.
    + intros a b c Ha Hb Hc. apply Htrans; now right.
Qed.



End sort_facts.


(** Two sorted arrangements of the same elements coincide when distinct
    elements are never tied. *)
Lemma sorted_arrangement_unique {A : Type} (R : A -> A -> Prop) (l1 l2 : list A) :
  (forall x y, In x l1 -> In y l1 -> R x y -> R y x -> x = y) ->
  Permutation l1 l2 -> StronglySorted R l1 -> StronglySorted R l2 -> l1 = l2.
Proof.
  revert l2. induction l1 as [|a t1 IH]; intros l2 Hanti Hp H1 H2.
  - now apply Permutation_nil in Hp.
  - destruct l2 as [|b t2]; [symmetry in Hp; now apply Permutation_nil in Hp|].
    apply StronglySorted_inv in H1 as [H1 Ha].
    apply StronglySorted_inv in H2 as [H2 Hb].
    rewrite List.Forall_forall in Ha, Hb.
    assert (Hab : a = b).
    { assert (Hb1 : In b (a :: t1)) by (apply (Permutation_in _ (Permutation_sym Hp)); now left).
      assert (Ha2 : In a (b :: t2)) by (apply (Permutation_in _ Hp); now left).
      destruct Hb1 as [->|Hb1]; [reflexivity|].
      destruct Ha2 as [->|Ha2]; [reflexivity|].
      apply Hanti; [now left | now right | now apply Ha | now apply Hb]. }
    subst b. f_equal. apply IH; auto.
    + intros x y Hx Hy. apply Hanti; now right.
    + now apply Permutation_cons_inv in Hp.
Qed.

(** ** services/ai.service.ts: ranking and context assembly *)


Lemma by_order_consistent (l : list Scored.t) : consistent_on by_order l.
Proof.
  unfold consistent_on, keeps, by_order, JS.gt0, JS.Number_Z. split.
  - intros x y _ _. rewrite Z.ltb_lt, Z.ltb_ge. lia.
  - intros x y z _ _ _. rewrite !Z.ltb_ge. lia.
Qed.

Lemma narrative_ascending (l : list Scored.t) : ascending (narrative l).
Proof.
  unfold ascending, narrative.
  pose proof (sort_sorted by_order l (by_order_consistent l)) as Hs.
  induction Hs as [|x t Hs IH Hx]; constructor; [exact IH|].
  eapply Forall_impl; [exact Hx|].
  intros y. unfold keeps, by_order, JS.gt0, JS.Number_Z. rewrite Z.ltb_ge. lia.
Qed.

Lemma narrative_perm (l : list Scored.t) : Permutation (narrative l) l.
Proof. apply sort_perm. Qed.

(** The narrative order does not depend on the order of the selection when
    no two selected chapters share an order. *)
Lemma narrative_of_perm (l1 l2 : list Scored.t) :
  NoDup (map (fun c => JS.num (Scored.order c)) l1) ->
  Permutation l1 l2 -> narrative l1 = narrative l2.
Proof.
  intros Hnd Hp.
  apply (sorted_arrangement_unique
           (fun x y => JS.num (Scored.order x) <= JS.num (Scored.order y))).
  - intros x y Hx Hy Hxy Hyx.
    apply (Permutation_in _ (narrative_perm l1)) in Hx, Hy.
    assert (Hk : JS.num (Scored.order x) = JS.num (Scored.order y)) by lia.
    clear Hxy Hyx Hp. induction l1 as [|a t IH]; [destruct Hx|].
    simpl in Hnd. apply NoDup_cons in Hnd as [Hna Hnd].
    destruct Hx as [->|Hx], Hy as [->|Hy]; auto.
    + exfalso. apply Hna. rewrite Hk. apply list_elem_of_In.
      now apply (in_map (fun c => JS.num (Scored.order c))).
    + exfalso. apply Hna. rewrite <- Hk. apply list_elem_of_In.
      now apply (in_map (fun c => JS.num (Scored.order c))).
  - rewrite narrative_perm, Hp. symmetry. apply narrative_perm.
  - apply narrative_ascending.
  - apply narrative_ascending.
Qed.

Lemma render_named (c : Scored.t) (name content : string) :
  Scored.name c = Some name -> name <> "" -> Scored.content c = Some content ->
  render c = "Chapter " +:+ JS.show_num (Scored.order c) +:+ ": " +:+ name
               +:+ JS.nl +:+ content.
Proof.
  intros Hn Hne Hc. unfold render. rewrite Hn, Hc. unfold JS.or_string.
  destruct (String.eqb_spec name "") as [->|_]; [contradiction|].
  destruct (String.eqb_spec content "") as [->|_]; reflexivity.
Qed.



Lemma relevantChapters_sub (chaptersWithScores : list Scored.t) :
  exists rest, Permutation (relevantChapters_of chaptersWithScores ++ rest) chaptersWithScores.
Proof.
  exists (drop 5 (JS.sort by_similarity chaptersWithScores)).
  unfold relevantChapters_of. rewrite take_drop. apply sort_perm.
Qed.

Lemma relevantChapters_In (chaptersWithScores : list Scored.t) (c : Scored.t) :
  In c (relevantChapters_of chaptersWithScores) -> In c chaptersWithScores.
Proof.
  intros Hin.
  destruct (relevantChapters_sub chaptersWithScores) as [rest Hp].
  apply (Permutation_in _ Hp), in_or_app. now left.
Qed.




Lemma join_concat (separator : string) (l : list string) :
  JS.join separator l = String.concat separator l.
Proof.
  induction l as [|x [|y t] IH]; [reflexivity..|].
  cbn [JS.join String.concat] in *. now rewrite IH.
Qed.

Lemma render_with_order (c : Scored.t) (order : Z) :
  Scored.order c = Some order ->
  render c
  = Specified.chapter order
      (match Scored.name c with
       | Some name => if String.eqb name "" then "Chapter " +:+ pretty order else name
       | None => "Chapter " +:+ pretty order
       end)
      (default "" (Scored.content c)).
Proof.
  intros Ho. unfold render, Specified.chapter, JS.or_string, JS.show_num. rewrite Ho.
  destruct (Scored.name c) as [name|], (Scored.content c) as [content|]; cbn [default];
    try destruct (String.eqb name ""); try destruct (String.eqb_spec content "");
    subst; reflexivity.
Qed.

Lemma render_complete (listed : list Scored.t) (chapters : list (Z * string * string)) :
  Forall2 complete listed chapters ->
  map render listed
  = map (fun '(order, name, content) => Specified.chapter order name content) chapters.
Proof.
  induction 1 as [|c [[order name] content] listed chapters (Ho & Hn & Hne & Hc) _ IH];
    [reflexivity|].
  cbn [map]. rewrite IH, (render_with_order c order Ho), Hn, Hc. cbn [default].
  destruct (String.eqb_spec name "") as [|_]; [contradiction|]. reflexivity.
Qed.

Lemma order_decides (l : list Scored.t) (x y : Scored.t) :
  NoDup (map (fun c => JS.num (Scored.order c)) l) ->
  In x l -> In y l -> JS.num (Scored.order x) = JS.num (Scored.order y) -> x = y.
Proof.
  intros Hnd Hx Hy Hk. induction l as [|a t IH]; [destruct Hx|].
  simpl in Hnd. apply NoDup_cons in Hnd as [Hna Hnd].
  destruct Hx as [->|Hx], Hy as [->|Hy]; auto.
  - exfalso. apply Hna. rewrite Hk. apply list_elem_of_In.
    now apply (in_map (fun c => JS.num (Scored.order c))).
  - exfalso. apply Hna. rewrite <- Hk. apply list_elem_of_In.
    now apply (in_map (fun c => JS.num (Scored.order c))).
Qed.

(** With distinct orders the narrative order is the only ascending
    arrangement. *)
Lemma narrative_unique (l listed : list Scored.t) :
  NoDup (map (fun c => JS.num (Scored.order c)) l) ->
  Permutation listed l -> ascending listed -> narrative l = listed.
Proof.
  intros Hnd Hp Hasc.
  apply (sorted_arrangement_unique
           (fun x y => JS.num (Scored.order x) <= JS.num (Scored.order y))).
  - intros x y Hx Hy Hxy Hyx.
    apply (Permutation_in _ (narrative_perm l)) in Hx, Hy.
    apply (order_decides l); auto. lia.
  - rewrite narrative_perm. now symmetry.
  - apply narrative_ascending.
  - exact Hasc.
Qed.

(** C8: the context is the selected chapters, each once, in ascending
    chapter order, their renderings joined by a blank line; a chapter of
    order [k] is rendered as "Chapter k: <name>", a newline and the content,
    with "Chapter k" for a missing or empty name and nothing for a missing
    content; so for chapters that have a name and a content the context is
    the text the specification describes, and when the selected chapters
    have distinct orders it is the same whatever their rank order. *)
Theorem contextText_in_narrative_order (relevantChapters : list Scored.t) :
  (exists listed : list Scored.t,
     Permutation listed relevantChapters
     /\ ascending listed
     /\ contextText_of relevantChapters
        = String.concat (Specified.newline +:+ Specified.newline) (map render listed))
  /\ (forall c order,
        Scored.order c = Some order ->
        render c
        = Specified.chapter order
            (match Scored.name c with
             | Some name => if String.eqb name "" then "Chapter " +:+ pretty order else name
             | None => "Chapter " +:+ pretty order
             end)
            (default "" (Scored.content c)))
  /\ (forall listed chapters,
        Permutation listed relevantChapters -> ascending listed ->
        NoDup (map (fun c => JS.num (Scored.order c)) relevantChapters) ->
        Forall2 complete listed chapters ->
        contextText_of relevantChapters = Specified.context chapters)
  /\ (forall ranked,
        NoDup (map (fun c => JS.num (Scored.order c)) relevantChapters) ->
        Permutation relevantChapters ranked ->
        contextText_of ranked = contextText_of relevantChapters).
Proof.
  assert (Hjoin : contextText_of relevantChapters
                  = String.concat (Specified.newline +:+ Specified.newline)
                      (map render (narrative relevantChapters))).
  { unfold contextText_of. apply join_concat. }
  split; [|split; [|split]].
  - exists (narrative relevantChapters).
    split; [apply narrative_perm|]. split; [apply narrative_ascending|exact Hjoin].
  - apply render_with_order.
  - intros listed chapters Hperm Hasc Hnd Hcomplete.
    rewrite Hjoin, (narrative_unique relevantChapters listed Hnd Hperm Hasc).
    unfold Specified.context. now rewrite (render_complete _ _ Hcomplete).
  - intros ranked Hnd Hp. unfold contextText_of.
    now rewrite (narrative_of_perm relevantChapters ranked Hnd Hp).
Qed.

Lemma contextText_in_narrative_order_witness :
  contextText_of (relevantChapters_of Sample.seven)
  = Specified.context
      [(1, "Part 1", "text of 1"); (2, "Part 2", "text of 2"); (3, "Part 3", "text of 3");
       (4, "Part 4", "text of 4"); (5, "Part 5", "text of 5")].
Proof.
  destruct (contextText_in_narrative_order (relevantChapters_of Sample.seven))
    as (_ & _ & Hspecified & _).
  apply (Hspecified (narrative (relevantChapters_of Sample.seven))).
  - apply narrative_perm.
  - apply narrative_ascending.
  - vm_compute. repeat (constructor; [rewrite list_elem_of_In; simpl; intuition discriminate|]).
    constructor.
  - vm_compute. repeat constructor; discriminate.
Defined.

Example contextText_sample :
  contextText_of (relevantChapters_of Sample.tied)
  = "Chapter 1: Part 1" +:+ JS.nl +:+ "text of 1" +:+ JS.nl +:+ JS.nl
    +:+ "Chapter 2: Part 2" +:+ JS.nl +:+ "text of 2".
Proof. vm_compute. reflexivity. Qed.

(** ** services/ai.service.ts: the boundary filter *)

Lemma forEach_push_chapters rt chapter_limit items acc out :
  forEach_push rt chapter_limit items acc = JS.Ok out ->
  map Candidate.chapter out
  = map Candidate.chapter acc ++ List.filter (within chapter_limit) (omap chapter_of items).
Proof.
  revert acc. induction items as [|item rest IH]; intros acc Hrun; simpl in *.
  - injection Hrun as <-. now rewrite app_nil_r.
  - destruct (parse_embedding rt (EmbeddingRow.embedding item)) as [v|e]; [|discriminate].
    destruct (chapter_of item) as [c|]; [|now apply IH].
    simpl. unfold within at 1.
    destruct (le_bound (Chapter.order c) (limit_or_infinity chapter_limit)).
    + rewrite (IH _ Hrun), map_app. simpl. now rewrite <- app_assoc.
    + now apply IH.
Qed.

Lemma forEach_push_total rt chapter_limit items acc :
  parseable rt items -> exists out, forEach_push rt chapter_limit items acc = JS.Ok out.
Proof.
  intros Hp. revert acc. induction Hp as [|item rest [v Hv] Hp IH]; intros acc; simpl.
  - eauto.
  - rewrite Hv. destruct (chapter_of item) as [c|]; [|apply IH].
    destruct (le_bound (Chapter.order c) (limit_or_infinity chapter_limit)); apply IH.
Qed.

Lemma forEach_push_source rt chapter_limit items acc out candidate :
  forEach_push rt chapter_limit items acc = JS.Ok out ->
  In candidate out ->
  In candidate acc
  \/ exists item, In item items /\ chapter_of item = Some (Candidate.chapter candidate)
                  /\ within chapter_limit (Candidate.chapter candidate) = true.
Proof.
  revert acc. induction items as [|item rest IH]; intros acc Hrun Hin; simpl in *.
  - injection Hrun as <-. now left.
  - destruct (parse_embedding rt (EmbeddingRow.embedding item)) as [v|e]; [|discriminate].
    destruct (chapter_of item) as [c|] eqn:Hc.
    + destruct (le_bound (Chapter.order c) (limit_or_infinity chapter_limit)) eqn:Hle.
      * destruct (IH _ Hrun Hin) as [Hacc | (item' & Hi & Hch & Hw)].
        -- apply in_app_or in Hacc as [Hacc | [<- | []]]; [now left|].
           right. exists item. simpl. auto.
        -- right. exists item'. auto.
      * destruct (IH _ Hrun Hin) as [Hacc | (item' & Hi & Hch & Hw)]; [now left|].
        right. exists item'. auto.
    + destruct (IH _ Hrun Hin) as [Hacc | (item' & Hi & Hch & Hw)]; [now left|].
      right. exists item'. auto.
Qed.

Lemma within_limit (L : Z) (c : Chapter.t) :
  L <> 0 -> within (Some L) c = true -> JS.num (Chapter.order c) <= L.
Proof.
  unfold within, limit_or_infinity. intros HL.
  destruct (Z.eqb_spec L 0) as [|_]; [contradiction|].
  simpl. now rewrite Z.leb_le.
Qed.

Lemma within_unlimited (chapter_limit : option Z) (c : Chapter.t) :
  chapter_limit = None \/ chapter_limit = Some 0 -> within chapter_limit c = true.
Proof. intros [-> | ->]; reflexivity. Qed.

Lemma filter_all {A : Type} (p : A -> bool) (l : list A) :
  (forall x, p x = true) -> List.filter p l = l.
Proof.
  intros Hp. induction l as [|x t IH]; simpl; [reflexivity|]. now rewrite Hp, IH.
Qed.

(** With a chapter limit [L] that is a number other than zero, whatever rows
    the store returns and whatever the embeddings are, the context is the
    rendering of chapters that were fetched and whose order is at most [L]. *)
Lemma contextText_within_limit (rt : Runtime) (L : Z)
    (items : list EmbeddingRow.t) (out : list Candidate.t) (questionEmbedding : list float) :
  L <> 0 ->
  forEach_push rt (Some L) items [] = JS.Ok out ->
  Forall (fun c =>
       JS.num (Scored.order c) <= L
       /\ exists item chapter,
            In item items /\ chapter_of item = Some chapter
            /\ Scored.order c = Chapter.order chapter
            /\ Scored.name c = Chapter.name chapter
            /\ Scored.content c = Chapter.content chapter)
    (narrative (relevantChapters_of (map (score questionEmbedding) out))).
Proof.
  intros HL Hrun.
  rewrite List.Forall_forall. intros c Hc.
  apply (Permutation_in _ (narrative_perm _)) in Hc.
  apply relevantChapters_In, in_map_iff in Hc as (candidate & <- & Hcand).
  destruct (forEach_push_source _ _ _ _ _ _ Hrun Hcand) as [[] | (item & Hi & Hch & Hw)].
  split.
  - simpl. now apply within_limit.
  - exists item, (Candidate.chapter candidate). simpl. auto.
Qed.

(** The scenario of the specification: limit 3, chapters 1 to 5, the word
    in chapter 4. *)
Example context_without_the_murderer :
  String.index 0 "murderer"
    (contextText_of (relevantChapters_of (map (score [1%float; 0%float]) Sample.within_three)))
  = None
  /\ String.index 0 "dinner"
       (contextText_of (relevantChapters_of (map (score [1%float; 0%float]) Sample.within_three)))
     <> None.
Proof. split; vm_compute; [reflexivity | discriminate]. Qed.

(** C2, as the code filters: when every stored embedding parses, the filter
    returns; with the chapter limit absent, null or zero it applies no bound
    and retains every fetched chapter; with a negative limit it retains the
    chapters whose order is at most the limit, none of order zero or more. *)
Theorem boundary_filter_by_limit (rt : Runtime) (chapter_limit : option Z)
    (items : list EmbeddingRow.t) :
  parseable rt items ->
  exists out : list Candidate.t,
    forEach_push rt chapter_limit items [] = JS.Ok out
    /\ map Candidate.chapter out = List.filter (within chapter_limit) (omap chapter_of items)
    /\ (chapter_limit = None \/ chapter_limit = Some 0 ->
        map Candidate.chapter out = omap chapter_of items)
    /\ (forall l, chapter_limit = Some l -> l < 0 ->
        Forall (fun c => JS.num (Chapter.order c) <= l) (map Candidate.chapter out)).
Proof.
  intros Hp.
  destruct (forEach_push_total rt chapter_limit items [] Hp) as [out Hrun].
  exists out. split; [exact Hrun|].
  pose proof (forEach_push_chapters _ _ _ _ _ Hrun) as Hout. simpl in Hout.
  split; [exact Hout|]. split.
  - intros Hno. rewrite Hout. apply filter_all. intros c. now apply within_unlimited.
  - intros l -> Hl. rewrite Hout, List.Forall_forall. intros c Hc.
    apply List.filter_In in Hc as [_ Hw]. apply within_limit; [lia | exact Hw].
Qed.

Lemma boundary_filter_by_limit_witness :
  exists out : list Candidate.t,
    forEach_push Sample.runtime None Sample.rows [] = JS.Ok out
    /\ map Candidate.chapter out = omap chapter_of Sample.rows.
Proof.
  destruct (boundary_filter_by_limit Sample.runtime None Sample.rows)
    as (out & Hrun & _ & Hall & _).
  - unfold parseable, Sample.rows. repeat constructor; eexists; reflexivity.
  - exists out. split; [exact Hrun|]. apply Hall. now left.
Defined.

(** C2 as claimed fails on the code: without a limit, and with the limit 0,
    all five sample chapters are retained, chapter 4 among them. *)
Lemma boundary_filter_fails_open :
  (exists out, forEach_push Sample.runtime None Sample.rows [] = JS.Ok out
               /\ length out = 5%nat)
  /\ (exists out, forEach_push Sample.runtime (Some 0) Sample.rows [] = JS.Ok out
                  /\ length out = 5%nat
                  /\ In (Sample.chapter 4 "The gardener is the murderer")
                       (map Candidate.chapter out)).
Proof.
  split.
  - eexists. split; [vm_compute; reflexivity | reflexivity].
  - eexists. split; [vm_compute; reflexivity|]. split; [reflexivity|].
    simpl. right. left. reflexivity.
Qed.

(** ** services/ai.service.ts: the calls of one invocation *)

Section paths.
Context {DB : Type} `{!Supabase DB} (rt : Runtime).

Lemma updateQuestionStatus_run (questionId : string) (st : Status) (s : Run.St DB) :
  exists r,
    questionsService.updateQuestionStatus rt questionId st s
    = (JS.Ok r,
       Run.mkSt (replay_call (Run.db s) (status_write rt questionId st))
         (Run.trace s ++ [status_write rt questionId st])).
Proof.
  unfold questionsService.updateQuestionStatus, Run.try_catch, Run.bind, Run.query, Run.ret.
  unfold status_write, replay_call.
  destruct (questions_update _ _ (Run.db s)) as [[r|e] d]; simpl.
  - destruct (Pg.error r); eauto.
  - eauto.
Qed.

Lemma updateQuestionAnswer_run (questionId answer : string) (s : Run.St DB) :
  exists r,
    questionsService.updateQuestionAnswer rt questionId answer s
    = (JS.Ok r,
       Run.mkSt (replay_call (Run.db s) (answer_write rt questionId answer))
         (Run.trace s ++ [answer_write rt questionId answer])).
Proof.
  unfold questionsService.updateQuestionAnswer, Run.try_catch, Run.bind, Run.query, Run.ret.
  unfold answer_write, replay_call.
  destruct (questions_update _ _ (Run.db s)) as [[r|e] d]; simpl.
  - destruct (Pg.error r); eauto.
  - eauto.
Qed.

(** [getQuestionById] reports success with data only when the store
    resolved without error and with that data. *)
Lemma getQuestionById_run (questionId : string) (s : Run.St DB) :
  exists r,
    questionsService.getQuestionById questionId s
    = (JS.Ok r,
       Run.mkSt (replay_call (Run.db s) (QuestionsSelectSingle questionId))
         (Run.trace s ++ [QuestionsSelectSingle questionId]))
    /\ (ApiResponse.success r = true ->
        exists response,
          fst (questions_select_single questionId (Run.db s)) = JS.Ok response
          /\ Pg.error response = None
          /\ Pg.data response = ApiResponse.data r)
    /\ (ApiResponse.success r = false ->
        exists e, ApiResponse.error r = Some e).
Proof.
  unfold questionsService.getQuestionById, Run.try_catch, Run.bind, Run.query, Run.ret.
  unfold replay_call.
  destruct (questions_select_single _ (Run.db s)) as [[r|e] d]; simpl.
  - destruct (Pg.error r) eqn:He; eexists; (split; [reflexivity|]); simpl; split;
      intros; try discriminate; eauto.
  - eexists; (split; [reflexivity|]); simpl; split; intros; try discriminate; eauto.
Qed.

Lemma getEmbedding_run (text : string) (s : Run.St DB) :
  exists r,
    getEmbedding rt text s
    = (r, Run.mkSt (Run.db s) (Run.trace s ++ [HuggingFacePost text])).
Proof.
  unfold getEmbedding, Run.try_catch, Run.bind, Run.external, Run.ret, Run.throw.
  destruct (axios_post rt text) as [[v|]|e]; simpl; eauto.
Qed.

End paths.

Ltac run :=
  cbv beta iota zeta delta [Run.bind Run.throw Run.ret Run.lift Run.external Run.query
                            Run.try_catch];
  cbn [Run.db Run.trace fst snd].

Ltac failed_here questionId :=
  match goal with
  | |- context [@questionsService.updateQuestionStatus ?DB ?client ?rt questionId failed ?s1] =>
      let r := fresh "r" in
      destruct (@updateQuestionStatus_run DB client rt questionId failed s1) as (r & ->); run
  end.

Ltac close_path lemma :=
  eexists; split; [rewrite <- !app_assoc; reflexivity|];
  split; [reflexivity | lemma].

Section invocation_path.
Context {DB : Type} `{!Supabase DB} (rt : Runtime).

(** Every invocation follows one of the five paths; the store it leaves is
    the store it found after the calls it recorded. *)
Lemma generateAnswer_path (questionId : string) (s : Run.St DB) :
  exists tr,
    Run.trace (snd (aiService.generateAnswer rt questionId s)) = Run.trace s ++ tr
    /\ Run.db (snd (aiService.generateAnswer rt questionId s)) = replay tr (Run.db s)
    /\ Path rt questionId (Run.db s) (fst (aiService.generateAnswer rt questionId s)) tr.
Proof.
  unfold aiService.generateAnswer. run.
  destruct (getQuestionById_run questionId s) as (r & -> & Hloaded & _).
  destruct (ApiResponse.success r), (ApiResponse.data r) as [data|]; run;
    try (failed_here questionId; close_path ltac:(apply NotLoaded)).
  destruct (Hloaded eq_refl) as (response & Hresponse & _ & Hdata).
  match goal with |- context [chapter_embeddings_select ?t ?d] =>
    destruct (chapter_embeddings_select t d) as [[fetched|e] d1] eqn:Hfetch;
    assert (Hd1 : d1 = replay_call d (ChapterEmbeddingsSelect t))
      by (change (d1 = snd (chapter_embeddings_select t d)); now rewrite Hfetch);
    apply (f_equal fst) in Hfetch; cbn [fst] in Hfetch; subst d1
  end; run.
  2:{ failed_here questionId. close_path ltac:(apply NotScored). }
  destruct (Pg.error fetched); [|destruct (Pg.data fetched) as [[|item0 items]|] eqn:Hitems]; run;
    try (failed_here questionId; close_path ltac:(apply NotScored)).
  match goal with |- context [forEach_push rt ?l (item0 :: items) []] =>
    destruct (forEach_push rt l (item0 :: items) []) as [chaptersWithEmbeddings|e] eqn:Hpush
  end; run.
  2:{ failed_here questionId; close_path ltac:(apply NotScored). }
  destruct (length chaptersWithEmbeddings =? 0)%nat; run.
  { failed_here questionId; close_path ltac:(apply NotScored). }
  match goal with |- context [negb (truthy_string ?t)] =>
    destruct (negb (truthy_string t)) end; run.
  { failed_here questionId; close_path ltac:(apply NotScored). }
  match goal with |- context [getEmbedding rt ?t ?s1] =>
    destruct (getEmbedding_run rt t s1) as [qe ->] end.
  destruct qe as [questionEmbedding|e]; run.
  2:{ failed_here questionId; close_path ltac:(apply NotPrompted). }
  match goal with |- context [(length (relevantChapters_of ?l) =? 0)%nat] =>
    destruct (length (relevantChapters_of l) =? 0)%nat end; run.
  { failed_here questionId; close_path ltac:(apply NotPrompted). }
  match goal with |- context [questionsService.updateQuestionStatus rt questionId pending ?s1] =>
    destruct (updateQuestionStatus_run rt questionId pending s1) as (r1 & ->) end.
  run.
  match goal with |- context [chat_completions_create rt ?p] =>
    set (prompt := p); destruct (chat_completions_create rt prompt) as [answer|e] eqn:Hchat
  end; run.
  2:{ failed_here questionId. close_path ltac:(apply NotAnswered; [|now left]).
      unfold Assembled. eexists response, data, fetched, _, _, _.
      repeat split; eauto. }
  destruct (truthy_string answer) eqn:Htruthy; cbn [negb]; run.
  2:{ failed_here questionId. close_path ltac:(apply NotAnswered; [|right; eauto]).
      unfold Assembled. eexists response, data, fetched, _, _, _.
      repeat split; eauto. }
  match goal with |- context [questionsService.updateQuestionAnswer rt questionId ?a ?s1] =>
    destruct (updateQuestionAnswer_run rt questionId a s1) as (r2 & ->) end.
  run.
  match goal with |- context [questionsService.updateQuestionStatus rt questionId answered ?s1] =>
    destruct (updateQuestionStatus_run rt questionId answered s1) as (r3 & ->) end.
  run.
  destruct answer as [answer|]; [|discriminate Htruthy]. change (default "" (Some answer)) with answer.
  close_path ltac:(apply Answered; [|exact Hchat|]).
  - unfold Assembled. eexists response, data, fetched, _, _, _.
    repeat split; eauto.
  - intros ->. discriminate Htruthy.
Qed.
End invocation_path.

Lemma split_at {A : Type} (tr pre post : list A) (ev : A) :
  tr = pre ++ ev :: post ->
  tr !! length pre = Some ev /\ take (length pre) tr = pre.
Proof.
  intros ->. split.
  - now rewrite list_lookup_middle.
  - now rewrite take_app_length.
Qed.

(** Case analysis on the position of an event in a trace that is written out. *)
Ltac positions k Hat Hpre :=
  destruct k as [|k]; cbn in Hat, Hpre;
  [ try discriminate Hat; try (injection Hat as Hat)
  | first [ discriminate Hat | positions k Hat Hpre ] ].

Ltac position H :=
  let Hat := fresh "Hat" in
  let Hpre := fresh "Hpre" in
  let k := fresh "k" in
  apply split_at in H as [Hat Hpre];
  match type of Hpre with
  | take (length ?pre) _ = _ => remember (length pre) as k eqn:Hk; clear Hk
  end;
  positions k Hat Hpre.

Section order.
Context {DB : Type} `{!Supabase DB} (rt : Runtime).

(** C3, as the code orders its calls: a write of [pending] is the fourth
    call of the invocation, made after the read of the question, the
    vector-store read and the question-embedding call and directly before
    the generation call; the generation call is made only directly after
    it; so an invocation that makes no generation call writes no [pending],
    and it throws; nothing is written to the question before the
    vector-store read and the question-embedding call. *)
Theorem pending_write_before_generation (questionId : string) (s : Run.St DB) :
  exists tr,
    Run.trace (snd (aiService.generateAnswer rt questionId s)) = Run.trace s ++ tr
    /\ (forall pre id u post,
          tr = pre ++ QuestionsUpdate id u :: post ->
          upd_status u = Some pending ->
          QuestionsUpdate id u = status_write rt questionId pending
          /\ (exists title_id question_text,
                pre = [QuestionsSelectSingle questionId; ChapterEmbeddingsSelect title_id;
                       HuggingFacePost question_text])
          /\ (exists prompt rest, post = ChatCompletionsCreate prompt :: rest))
    /\ (forall pre prompt post,
          tr = pre ++ ChatCompletionsCreate prompt :: post ->
          exists title_id question_text,
            pre = [QuestionsSelectSingle questionId; ChapterEmbeddingsSelect title_id;
                   HuggingFacePost question_text; status_write rt questionId pending])
    /\ ((forall prompt, ~ In (ChatCompletionsCreate prompt) tr) ->
        (forall id u, In (QuestionsUpdate id u) tr -> upd_status u <> Some pending)
        /\ exists e, fst (aiService.generateAnswer rt questionId s) = JS.Throw e)
    /\ (forall pre ev post,
          tr = pre ++ ev :: post ->
          (exists title_id, ev = ChapterEmbeddingsSelect title_id)
          \/ (exists text, ev = HuggingFacePost text) ->
          forall id u, ~ In (QuestionsUpdate id u) pre).
Proof.
  destruct (generateAnswer_path rt questionId s) as (tr & Htr & _ & Hpath).
  exists tr. split; [exact Htr|].
  split; [|split; [|split]].
  - intros pre id u post Hsplit Hpending. pose proof Hsplit as Hpost.
    destruct Hpath; unfold status_write, answer_write in *; position Hsplit; subst pre.
    all: try (subst u; discriminate Hpending).
    all: subst; cbn [app] in Hpost; inversion Hpost; subst.
    all: (split; [reflexivity|]); split; eauto.
  - intros pre prompt post Hsplit.
    destruct Hpath; unfold status_write, answer_write in *; position Hsplit; subst pre.
    all: eauto.
  - intros Hnone. split.
    + intros id u Hin Hpending.
      destruct Hpath; unfold status_write, answer_write in *; cbn [In] in Hin.
      all: try (exfalso; eapply Hnone; cbn [In]; eauto 10; fail).
      all: repeat match goal with
                  | H : _ \/ _ |- _ => destruct H
                  | H : False |- _ => destruct H
                  | H : _ = QuestionsUpdate _ _ |- _ =>
                      first [discriminate H | injection H as <- <-]
                  end.
      all: discriminate Hpending.
    + destruct Hpath; eauto.
      all: exfalso; eapply Hnone; cbn [In]; eauto 10.
  - intros pre ev post Hsplit Hev id u Hin.
    destruct Hpath; position Hsplit; subst pre ev.
    all: try (destruct Hev as [[? Hev]|[? Hev]]; discriminate Hev).
    all: cbn in Hin; intuition discriminate.
Qed.
End order.

(** ** The in-memory store *)

Section in_memory.
Context (fault : Event -> Mem.Fault).

Lemma Mem_select_single_keeps (d : Mem.DB) (questionId : string) :
  replay_call (Supabase0 := Mem.client fault) d (QuestionsSelectSingle questionId) = d.
Proof.
  cbn [replay_call questions_select_single Mem.client]. unfold Mem.guarded, Mem.select_single.
  destruct (fault _); [destruct (Mem.questions d !! questionId)|..]; reflexivity.
Qed.

Lemma Mem_select_embeddings_keeps (d : Mem.DB) (title_id : string) :
  replay_call (Supabase0 := Mem.client fault) d (ChapterEmbeddingsSelect title_id) = d.
Proof.
  cbn [replay_call chapter_embeddings_select Mem.client]. unfold Mem.guarded, Mem.select_embeddings.
  destruct (fault _); reflexivity.
Qed.

Lemma Mem_update_missing (d : Mem.DB) (questionId : string) (u : UpdateQuestion) :
  Mem.questions d !! questionId = None ->
  replay_call (Supabase0 := Mem.client fault) d (QuestionsUpdate questionId u) = d.
Proof.
  intros Hnone.
  cbn [replay_call questions_update Mem.client]. unfold Mem.guarded, Mem.update_single.
  destruct (fault _); [rewrite Hnone|..]; reflexivity.
Qed.

Lemma Mem_update_lookup (d : Mem.DB) (questionId : string) (u : UpdateQuestion) (id : string) :
  Mem.questions (replay_call (Supabase0 := Mem.client fault) d (QuestionsUpdate questionId u)) !! id
  = Mem.questions d !! id
  \/ (fault (QuestionsUpdate questionId u) = Mem.NoFault /\ id = questionId
      /\ exists q, Mem.questions d !! id = Some q
           /\ Mem.questions
                (replay_call (Supabase0 := Mem.client fault) d (QuestionsUpdate questionId u)) !! id
              = Some (Mem.apply_update u q)).
Proof.
  cbn [replay_call questions_update Mem.client]. unfold Mem.guarded, Mem.update_single.
  destruct (fault _) eqn:Hf; [|now left..].
  destruct (Mem.questions d !! questionId) as [q|] eqn:Hq; [|now left].
  cbn [snd Mem.set_questions Mem.questions].
  destruct (decide (id = questionId)) as [->|Hne].
  - right. repeat split. exists q. split; [exact Hq|]. apply lookup_insert_eq.
  - left. now apply lookup_insert_ne.
Qed.

Lemma Mem_update_applied (d : Mem.DB) (questionId : string) (u : UpdateQuestion) (q : Question.t) :
  fault (QuestionsUpdate questionId u) = Mem.NoFault ->
  Mem.questions d !! questionId = Some q ->
  Mem.questions (replay_call (Supabase0 := Mem.client fault) d (QuestionsUpdate questionId u))
    !! questionId = Some (Mem.apply_update u q).
Proof.
  intros Hf Hq.
  cbn [replay_call questions_update Mem.client]. unfold Mem.guarded, Mem.update_single.
  rewrite Hf, Hq. cbn [snd Mem.set_questions Mem.questions]. apply lookup_insert_eq.
Qed.

Lemma Mem_update_answer_text (d : Mem.DB) (questionId : string) (u : UpdateQuestion) (id : string) :
  upd_answer_text u = None ->
  Question.answer_text <$>
    (Mem.questions (replay_call (Supabase0 := Mem.client fault) d (QuestionsUpdate questionId u)) !! id)
  = Question.answer_text <$> (Mem.questions d !! id).
Proof.
  intros Hu.
  destruct (Mem_update_lookup d questionId u id) as [-> | (_ & _ & q & Hq & ->)]; [reflexivity|].
  rewrite Hq. cbn. now rewrite Hu.
Qed.

Lemma Mem_update_present (d : Mem.DB) (questionId : string) (u : UpdateQuestion) (id : string) :
  is_Some (Mem.questions d !! id) ->
  is_Some (Mem.questions
             (replay_call (Supabase0 := Mem.client fault) d (QuestionsUpdate questionId u)) !! id).
Proof.
  intros Hsome.
  destruct (Mem_update_lookup d questionId u id) as [-> | (_ & _ & q & Hq & ->)]; eauto.
Qed.

Lemma Mem_select_single_found (d : Mem.DB) (questionId : string)
    (response : Pg.Response QuestionWithTitle.t) (data : QuestionWithTitle.t) :
  fst (questions_select_single (Supabase := Mem.client fault) questionId d) = JS.Ok response ->
  Pg.data response = Some data ->
  Mem.questions d !! questionId = Some (QuestionWithTitle.row data).
Proof.
  cbn [questions_select_single Mem.client]. unfold Mem.guarded, Mem.select_single.
  destruct (fault _); cbn; [|intros [= <-]; discriminate|discriminate].
  destruct (Mem.questions d !! questionId) as [q|]; cbn; intros [= <-]; cbn; [|discriminate].
  now intros [= <-].
Qed.

End in_memory.

(** ** services/ai.service.ts: failures *)

Section failure.
Context {DB : Type} `{!Supabase DB} (rt : Runtime).

(** An invocation that throws has issued the failed write as its last call,
    whatever the store made of it, and throws the error that stopped it. *)
Lemma generateAnswer_throws (questionId : string) (s : Run.St DB) (e : string) :
  fst (aiService.generateAnswer rt questionId s) = JS.Throw e ->
  exists before,
    Run.trace (snd (aiService.generateAnswer rt questionId s))
    = Run.trace s ++ before ++ [status_write rt questionId failed]
    /\ ~ In (status_write rt questionId failed) before.
Proof.
  destruct (generateAnswer_path rt questionId s) as (tr & Htr & _ & Hpath).
  intros He. rewrite Htr, He in *. clear He Htr.
  inversion Hpath; subst.
  - exists [QuestionsSelectSingle questionId]. split; [reflexivity|].
    cbn. intuition discriminate.
  - eexists [_; _]. split; [reflexivity|]. cbn. intuition discriminate.
  - eexists [_; _; _]. split; [reflexivity|]. cbn. intuition discriminate.
  - eexists [_; _; _; _; _]. split; [reflexivity|]. cbn. intuition discriminate.
Qed.

End failure.

Section empty_response.
Context (fault : Event -> Mem.Fault) (rt : Runtime).

(** C9: when the generation provider resolves with empty or missing text,
    the invocation throws "No answer generated by AI"; no update carrying an
    answer is issued and no stored [answer_text] changes; the last call is
    the failed write, and unless the store refuses that write the question's
    status is [failed]. *)
Theorem empty_response_fails (questionId : string) (s : Run.St Mem.DB)
    (prompt : string) (content : option string) (tr : list Event) :
  let run := aiService.generateAnswer (Supabase0 := Mem.client fault) rt questionId s in
  Run.trace (snd run) = Run.trace s ++ tr ->
  In (ChatCompletionsCreate prompt) tr ->
  chat_completions_create rt prompt = JS.Ok content ->
  truthy_string content = false ->
  fst run = JS.Throw "No answer generated by AI"
  /\ (forall id u, In (QuestionsUpdate id u) tr -> upd_answer_text u = None)
  /\ last tr = Some (status_write rt questionId failed)
  /\ (forall id,
        Question.answer_text <$> (Mem.questions (Run.db (snd run)) !! id)
        = Question.answer_text <$> (Mem.questions (Run.db s) !! id))
  /\ (fault (status_write rt questionId failed) = Mem.NoFault ->
      Question.status <$> (Mem.questions (Run.db (snd run)) !! questionId)
      = Some (Some failed)).
Proof.
  intros run Htr Hin Hchat Hempty. subst run.
  destruct (generateAnswer_path (Supabase0 := Mem.client fault) rt questionId s)
    as (tr' & Htr' & Hdb & Hpath).
  rewrite Htr' in Htr. apply app_inv_head in Htr. subst tr'.
  rewrite Hdb. clear Hdb Htr'.
  destruct Hpath as [e|t e|t x e|t x p e Hasm Hgen|t x p a Hasm Hgen Ha];
    unfold status_write, answer_write in Hin; cbn in Hin.
  1-3: intuition discriminate.
  - assert (p = prompt) as -> by (intuition congruence).
    assert (e = "No answer generated by AI") as ->.
    { destruct Hgen as [Hgen | (c & _ & _ & ->)]; [congruence | reflexivity]. }
    cbn [fst replay fold_left].
    rewrite Mem_select_single_keeps, Mem_select_embeddings_keeps.
    cbn [replay_call].
    destruct Hasm as (response & data & _ & _ & _ & _ & Hsel & Hdata & _).
    pose proof (Mem_select_single_found fault _ _ _ _ Hsel Hdata) as Hq.
    unfold status_write.
    split; [reflexivity|]. split; [|split; [reflexivity|split]].
    + intros id u Hu. cbn in Hu.
      destruct Hu as [Hu|[Hu|[Hu|[Hu|[Hu|[Hu|[]]]]]]]; try discriminate Hu;
        injection Hu as _ <-; reflexivity.
    + intros id. now rewrite !Mem_update_answer_text.
    + intros Hf.
      destruct (Mem_update_present fault (Run.db s) questionId
                  {| upd_answer_text := None; upd_status := Some pending;
                     upd_updated_at := now_iso rt |} questionId) as [q1 Hq1]; [eauto|].
      rewrite (Mem_update_applied fault _ _ _ q1 Hf Hq1). reflexivity.
  - exfalso.
    assert (p = prompt) as -> by (intuition congruence).
    rewrite Hgen in Hchat. injection Hchat as <-. cbn in Hempty.
    destruct (String.eqb_spec a ""); [contradiction | discriminate].
Qed.

End empty_response.

Lemma empty_response_fails_witness :
  fst (aiService.generateAnswer (Supabase0 := Mem.client Sample.no_fault)
         Sample.silent "q1" Sample.start)
  = JS.Throw "No answer generated by AI"
  /\ Question.status <$>
       (Mem.questions
          (Run.db (snd (aiService.generateAnswer (Supabase0 := Mem.client Sample.no_fault)
                          Sample.silent "q1" Sample.start))) !! "q1")
     = Some (Some failed).
Proof.
  destruct (empty_response_fails Sample.no_fault Sample.silent "q1" Sample.start
              Sample.prompt (Some "") Sample.silent_trace)
    as (Hthrows & _ & _ & _ & Hstatus).
  - vm_compute. reflexivity.
  - do 4 right. left. reflexivity.
  - reflexivity.
  - reflexivity.
  - split; [exact Hthrows | apply Hstatus; reflexivity].
Defined.

Section not_found.
Context (fault : Event -> Mem.Fault) (rt : Runtime).

(** C4, as the code aborts: when the store holds no question under the id,
    whatever the store's failures, the invocation throws the not-found error
    after two calls, the read and one attempt to write [failed]; it writes
    neither [pending] nor [answered], calls no provider, and leaves the
    store as it found it, the attempted write matching no row. *)
Theorem question_not_found (questionId : string) (s : Run.St Mem.DB) :
  Mem.questions (Run.db s) !! questionId = None ->
  exists reason,
    aiService.generateAnswer (Supabase0 := Mem.client fault) rt questionId s
    = (JS.Throw ("Question not found: " +:+ reason),
       Run.mkSt (Run.db s)
         (Run.trace s ++ [QuestionsSelectSingle questionId;
                          status_write rt questionId failed])).
Proof.
  intros Hnone.
  assert (Hget : exists reason,
    questionsService.getQuestionById (Supabase0 := Mem.client fault) questionId s
    = (JS.Ok (ApiResponse.mk false None (Some reason) None),
       Run.mkSt (Run.db s) (Run.trace s ++ [QuestionsSelectSingle questionId]))).
  { unfold questionsService.getQuestionById. run.
    cbn [questions_select_single Mem.client]. unfold Mem.guarded, Mem.select_single.
    destruct (fault _); [rewrite Hnone|..]; cbn; eauto. }
  destruct Hget as [reason Hget]. exists reason.
  unfold aiService.generateAnswer. run. rewrite Hget. run.
  cbn [ApiResponse.success ApiResponse.data ApiResponse.error JS.show_optional].
  failed_here questionId.
  change (default "undefined" (Some reason)) with reason.
  unfold status_write.
  rewrite Mem_update_missing by exact Hnone.
  now rewrite <- app_assoc.
Qed.

End not_found.

Lemma question_not_found_witness :
  exists reason,
    aiService.generateAnswer (Supabase0 := Mem.client Sample.no_fault)
      Sample.runtime "q9" Sample.start
    = (JS.Throw ("Question not found: " +:+ reason),
       Run.mkSt Sample.store
         [QuestionsSelectSingle "q9"; status_write Sample.runtime "q9" failed]).
Proof.
  apply (question_not_found Sample.no_fault Sample.runtime "q9" Sample.start).
  vm_compute. reflexivity.
Defined.

(** C4 as claimed fails on the code: for an id the store does not hold, a
    write to the question is attempted. *)
Lemma not_found_attempts_a_write :
  Mem.questions Sample.store !! "q9" = None
  /\ ~ no_write_attempted
         (Run.trace (snd (aiService.generateAnswer (Supabase0 := Mem.client Sample.no_fault)
                            Sample.runtime "q9" Sample.start))).
Proof.
  split; [vm_compute; reflexivity|].
  intros Hnone.
  apply (Hnone "q9" {| upd_answer_text := None; upd_status := Some failed;
                       upd_updated_at := now_iso Sample.runtime |}).
  vm_compute. right. left. reflexivity.
Qed.

(** C3 as claimed fails on the code: for a stored question the vector store
    is read before any pending write. *)
Lemma pending_write_after_external_calls :
  Mem.questions Sample.store !! "q1" = Some Sample.question
  /\ ~ pending_before_external Sample.runtime "q1"
         (Run.trace (snd (aiService.generateAnswer (Supabase0 := Mem.client Sample.no_fault)
                            Sample.runtime "q1" Sample.start))).
Proof.
  split; [vm_compute; reflexivity|].
  intros Hfirst.
  match goal with
  | H : pending_before_external _ _ ?tr |- _ =>
      let t := eval vm_compute in tr in
      change tr with t in H
  end.
  specialize (Hfirst [QuestionsSelectSingle "q1"] (ChapterEmbeddingsSelect "t1") _ eq_refl I).
  cbn in Hfirst. destruct Hfirst as [Hfirst|[]]. discriminate Hfirst.
Qed.

(** C5 on the code, where the store refuses the update that carries the
    answer: the invocation returns the answer as if it were saved, attempts
    no failed write, and the question ends [answered] with no answer text. *)
Lemma answer_write_failure_goes_unnoticed :
  let run := aiService.generateAnswer (Supabase0 := Mem.client Sample.answer_write_fails)
               Sample.runtime "q1" Sample.start in
  fst run = JS.Ok "Nobody knows yet."
  /\ In (answer_write Sample.runtime "q1" "Nobody knows yet.") (Run.trace (snd run))
  /\ Sample.answer_write_fails (answer_write Sample.runtime "q1" "Nobody knows yet.")
     = Mem.Failing "connection lost"
  /\ ~ In (status_write Sample.runtime "q1" failed) (Run.trace (snd run))
  /\ Question.answer_text <$> (Mem.questions (Run.db (snd run)) !! "q1") = Some None
  /\ Question.status <$> (Mem.questions (Run.db (snd run)) !! "q1") = Some (Some answered).
Proof.
  intros run.
  assert (Htrace : Run.trace (snd run)
                   = [QuestionsSelectSingle "q1"; ChapterEmbeddingsSelect "t1";
                      HuggingFacePost "Who broke the vase?";
                      status_write Sample.runtime "q1" pending;
                      ChatCompletionsCreate Sample.prompt;
                      answer_write Sample.runtime "q1" "Nobody knows yet.";
                      status_write Sample.runtime "q1" answered])
    by (vm_compute; reflexivity).
  rewrite Htrace.
  split; [vm_compute; reflexivity|].
  split; [do 5 right; left; reflexivity|].
  split; [reflexivity|].
  split; [|split; vm_compute; reflexivity].
  unfold status_write, answer_write. cbn. intuition discriminate.
Qed.

(** ** services/questions.service.ts *)

(** The one store query of a service operation, by its outcome. *)
Ltac store_answers response e d Hcall :=
  match goal with
  | |- context [questions_insert ?row ?d0] =>
      destruct (questions_insert row d0) as [[response|e] d] eqn:Hcall
  | |- context [questions_select_single ?id ?d0] =>
      destruct (questions_select_single id d0) as [[response|e] d] eqn:Hcall
  | |- context [questions_select_list ?fs ?d0] =>
      destruct (questions_select_list fs d0) as [[response|e] d] eqn:Hcall
  | |- context [questions_update ?id ?u ?d0] =>
      destruct (questions_update id u d0) as [[response|e] d] eqn:Hcall
  | |- context [questions_delete ?id ?d0] =>
      destruct (questions_delete id d0) as [[response|e] d] eqn:Hcall
  end.

Ltac adapt contract :=
  let response := fresh "response" in
  let e := fresh "e" in
  let d := fresh "d" in
  let Hcall := fresh "Hcall" in
  let Herror := fresh "Herror" in
  unfold adapts; run; store_answers response e d Hcall; cbn [fst];
  [ destruct (Pg.error response) eqn:Herror; do 2 eexists; (split; [reflexivity|]);
    cbn [ApiResponse.success ApiResponse.data ApiResponse.error];
    [ split; reflexivity
    | split; [reflexivity|split; [reflexivity|]];
      let Hrequested := fresh "Hrequested" in
      intros Hrequested;
      first [ discriminate Hrequested
            | eexists; reflexivity
            | eapply contract; [rewrite Hcall; reflexivity | exact Herror] ] ]
  | do 2 eexists; (split; [reflexivity|]);
    cbn [ApiResponse.success ApiResponse.data ApiResponse.error];
    split; [reflexivity | eexists; reflexivity] ].

Section store_adapter.
Context {DB : Type} `{!Supabase DB} (rt : Runtime).

(** C10: with a store client whose single-row queries keep PostgREST's
    contract, each of the nine operations of [questionsService] returns an
    [ApiResponse] and does not throw, whatever the store does: a rejected
    query or a query resolved with an error gives [success = false] with an
    error message, any other gives [success = true] with the data of the
    store's response ([data || []] for the list queries; [deleteQuestion]
    requests none). [getRecentQuestions] reports an invalid cutoff date the
    same way and then makes no query. *)
Theorem questionsService_total (s : Run.St DB) :
  single_row_contract ->
  (forall questionData,
     adapts (questionsService.createQuestion questionData)
       (fst (questions_insert
               {| ins_user_id := qd_user_id questionData;
                  ins_title_id := qd_title_id questionData;
                  ins_question_text := qd_question_text questionData;
                  ins_chapter_limit := qd_chapter_limit questionData;
                  ins_status := pending |} (Run.db s)))
       Pg.data true s)
  /\ (forall questionId,
        adapts (questionsService.getQuestionById questionId)
          (fst (questions_select_single questionId (Run.db s))) Pg.data true s)
  /\ (forall userId titleId,
        adapts (questionsService.getUserQuestions userId titleId)
          (fst (questions_select_list
                  ([eq_ "user_id" userId] ++
                   (if truthy_string titleId then [eq_ "title_id" (default "" titleId)]
                    else []))
                  (Run.db s)))
          (fun response => Some (default [] (Pg.data response))) true s)
  /\ (forall questionId answerText,
        adapts (questionsService.updateQuestionAnswer rt questionId answerText)
          (fst (questions_update questionId
                  {| upd_answer_text := Some answerText; upd_status := Some answered;
                     upd_updated_at := now_iso rt |} (Run.db s)))
          Pg.data true s)
  /\ (forall questionId status,
        adapts (questionsService.updateQuestionStatus rt questionId status)
          (fst (questions_update questionId
                  {| upd_answer_text := None; upd_status := Some status;
                     upd_updated_at := now_iso rt |} (Run.db s)))
          Pg.data true s)
  /\ (forall questionId,
        adapts (questionsService.deleteQuestion questionId)
          (fst (questions_delete questionId (Run.db s)))
          (fun _ => None) false s)
  /\ (forall userId status,
        adapts (questionsService.getQuestionsByStatus userId status)
          (fst (questions_select_list
                  [eq_ "user_id" userId; eq_ "status" (status_text status)] (Run.db s)))
          (fun response => Some (default [] (Pg.data response))) true s)
  /\ (forall userId days,
        match days_ago_iso rt (default 7 days) with
        | JS.Ok cutoffDate =>
            adapts (questionsService.getRecentQuestions rt userId days)
              (fst (questions_select_list
                      [eq_ "user_id" userId; gte "created_at" cutoffDate] (Run.db s)))
              (fun response => Some (default [] (Pg.data response))) true s
        | JS.Throw _ =>
            exists r,
              questionsService.getRecentQuestions rt userId days s = (JS.Ok r, s)
              /\ ApiResponse.success r = false /\ is_Some (ApiResponse.error r)
        end)
  /\ (forall userId titleId,
        adapts (questionsService.getQuestionsByTitle userId titleId)
          (fst (questions_select_list
                  [eq_ "user_id" userId; eq_ "title_id" titleId] (Run.db s)))
          (fun response => Some (default [] (Pg.data response))) true s).
Proof.
  intros (Hinsert & Hselect & Hupdate).
  repeat split.
  - intros questionData. unfold questionsService.createQuestion. adapt Hinsert.
  - intros questionId. unfold questionsService.getQuestionById. adapt Hselect.
  - intros userId titleId. unfold questionsService.getUserQuestions. adapt Hselect.
  - intros questionId answerText. unfold questionsService.updateQuestionAnswer. adapt Hupdate.
  - intros questionId status. unfold questionsService.updateQuestionStatus. adapt Hupdate.
  - intros questionId. unfold questionsService.deleteQuestion. adapt Hselect.
  - intros userId status. unfold questionsService.getQuestionsByStatus. adapt Hselect.
  - intros userId days. unfold questionsService.getRecentQuestions.
    destruct (days_ago_iso rt (default 7 days)) as [cutoffDate|e] eqn:Hdays.
    + adapt Hselect.
    + run. eexists. split; [reflexivity|].
      split; [reflexivity | eexists; reflexivity].
  - intros userId titleId. unfold questionsService.getQuestionsByTitle. adapt Hselect.
Qed.

End store_adapter.

Lemma Mem_single_row_contract (fault : Event -> Mem.Fault) :
  single_row_contract (Supabase0 := Mem.client fault).
Proof.
  unfold single_row_contract. cbn [questions_insert questions_select_single questions_update Mem.client].
  unfold Mem.guarded. repeat split.
  - intros d row response. destruct (fault _); cbn; [|intros [= <-]; discriminate|discriminate].
    unfold Mem.insert_row. destruct (Mem.uuids d) as [|[id at_] rest]; cbn.
    + intros [= <-]. discriminate.
    + destruct (Mem.questions d !! id); cbn; intros [= <-]; [discriminate | eauto].
  - intros d questionId response. destruct (fault _); cbn; [|intros [= <-]; discriminate|discriminate].
    unfold Mem.select_single. destruct (Mem.questions d !! questionId); cbn; intros [= <-];
      [eauto | discriminate].
  - intros d questionId u response. destruct (fault _); cbn; [|intros [= <-]; discriminate|discriminate].
    unfold Mem.update_single. destruct (Mem.questions d !! questionId); cbn; intros [= <-];
      [eauto | discriminate].
Qed.

Lemma questionsService_total_witness :
  adapts
    (questionsService.getQuestionById (Supabase0 := Mem.client Sample.no_fault) "q1")
    (fst (questions_select_single (Supabase := Mem.client Sample.no_fault) "q1" Sample.store))
    Pg.data true Sample.start
  /\ adapts
       (questionsService.updateQuestionAnswer (Supabase0 := Mem.client Sample.answer_write_fails)
          Sample.runtime "q1" "Nobody knows yet.")
       (JS.Ok (Pg.mk None (Some (Pg.mkError "connection lost"))))
       Pg.data true Sample.start.
Proof.
  split.
  - apply (questionsService_total (Supabase0 := Mem.client Sample.no_fault)
             Sample.runtime Sample.start (Mem_single_row_contract Sample.no_fault)).
  - apply (questionsService_total (Supabase0 := Mem.client Sample.answer_write_fails)
             Sample.runtime Sample.start (Mem_single_row_contract Sample.answer_write_fails)).
Defined.

(** ** services/ai.service.ts: spoiler safety of the prompt *)

Section spoiler_safety.
Context {DB : Type} `{!Supabase DB} (rt : Runtime).

(** C1, as the code bounds the context: whenever an invocation sends a
    prompt to the generation provider, its context is the rendering, joined
    by blank lines, of five (or all, when there are fewer) of the chapters
    the boundary filter kept; when the question the store returned has a chapter
    limit [L] that is a number other than zero, every chapter in it is a
    chapter of the rows the store returned, of order at most [L], whatever
    rows and embeddings the ranker is given; when the limit is null or zero
    the filter has kept every fetched chapter, so that chapters of any order
    are rendered into the context. *)
Theorem prompt_within_chapter_limit (questionId : string) (s : Run.St DB)
    (tr : list Event) (prompt : string) :
  let run := aiService.generateAnswer rt questionId s in
  Run.trace (snd run) = Run.trace s ++ tr ->
  In (ChatCompletionsCreate prompt) tr ->
  exists response data fetched items kept questionEmbedding listed,
    let chapter_limit := Question.chapter_limit (QuestionWithTitle.row data) in
    fst (questions_select_single questionId (Run.db s)) = JS.Ok response
    /\ Pg.data response = Some data
    /\ fst (chapter_embeddings_select (Question.title_id (QuestionWithTitle.row data))
              (snd (questions_select_single questionId (Run.db s)))) = JS.Ok fetched
    /\ Pg.data fetched = Some items
    /\ forEach_push rt chapter_limit items [] = JS.Ok kept
    /\ (exists rest, Permutation (listed ++ rest) (map (score questionEmbedding) kept))
    /\ length listed = Nat.min 5 (length kept)
    /\ prompt = prompt_of
                  (String.concat (Specified.newline +:+ Specified.newline) (map render listed))
                  (default "" (Question.question_text (QuestionWithTitle.row data)))
                  chapter_limit
    /\ (forall L,
         chapter_limit = Some L -> L <> 0 ->
         Forall (fun c =>
              JS.num (Scored.order c) <= L
              /\ exists item chapter,
                   In item items /\ chapter_of item = Some chapter
                   /\ Scored.order c = Chapter.order chapter
                   /\ Scored.name c = Chapter.name chapter
                   /\ Scored.content c = Chapter.content chapter)
           listed)
    /\ (chapter_limit = None \/ chapter_limit = Some 0 ->
        map Candidate.chapter kept = omap chapter_of items).
Proof.
  intros run Htr Hin. subst run.
  destruct (generateAnswer_path rt questionId s) as (tr' & Htr' & _ & Hpath).
  rewrite Htr' in Htr. apply app_inv_head in Htr. subst tr'. clear Htr'.
  assert (Hasm : Assembled rt questionId (Run.db s) prompt).
  { destruct Hpath as [e|t e|t x e|t x p e Hasm _|t x p a Hasm _ _];
      unfold status_write, answer_write in Hin; cbn in Hin.
    1-3: intuition discriminate.
    all: assert (p = prompt) as -> by (intuition congruence); exact Hasm. }
  destruct Hasm as (response & data & fetched & items & kept & questionEmbedding
                    & Hsel & Hdata & Hfetch & Hitems & Hpush & ->).
  exists response, data, fetched, items, kept, questionEmbedding,
    (narrative (relevantChapters_of (map (score questionEmbedding) kept))).
  cbv zeta.
  repeat (split; [assumption|]).
  split.
  { destruct (relevantChapters_sub (map (score questionEmbedding) kept)) as [rest Hrest].
    exists rest. now rewrite narrative_perm. }
  split.
  { rewrite (Permutation_length (narrative_perm _)).
    unfold relevantChapters_of. now rewrite length_take, sort_length, length_map. }
  split.
  { unfold contextText_of. now rewrite join_concat. }
  split.
  - intros L HL Hnz. rewrite HL in Hpush.
    now apply (contextText_within_limit rt L items kept questionEmbedding).
  - intros Hno.
    pose proof (forEach_push_chapters _ _ _ _ _ Hpush) as Hkept. simpl in Hkept.
    rewrite Hkept. apply filter_all. intros c. now apply within_unlimited.
Qed.

End spoiler_safety.

Lemma prompt_within_chapter_limit_witness :
  exists listed,
    Sample.prompt
    = prompt_of (String.concat (Specified.newline +:+ Specified.newline) (map render listed))
        "Who broke the vase?" (Some 3)
    /\ Forall (fun c => JS.num (Scored.order c) <= 3) listed.
Proof.
  destruct (prompt_within_chapter_limit (Supabase0 := Mem.client Sample.no_fault)
              Sample.silent "q1" Sample.start Sample.silent_trace Sample.prompt)
    as (response & data & fetched & items & kept & questionEmbedding & listed
        & Hsel & Hdata & _ & _ & _ & _ & _ & Hprompt & Hall & _).
  - vm_compute. reflexivity.
  - do 4 right. left. reflexivity.
  - vm_compute in Hsel. injection Hsel as <-. cbn in Hdata. injection Hdata as <-.
    exists listed. split; [exact Hprompt|].
    eapply Forall_impl; [apply (Hall 3); [reflexivity | lia]|].
    intros c [Hc _]. exact Hc.
Defined.

(** C1 as claimed fails on the code: for a question stored with the chapter
    limit 0 the prompt sent to the generation provider holds the content of
    chapter 4. *)
Lemma prompt_beyond_chapter_limit :
  let run := aiService.generateAnswer (Supabase0 := Mem.client Sample.no_fault)
               Sample.runtime "q0" Scenario.unbounded_start in
  Question.chapter_limit <$> (Mem.questions (Run.db Scenario.unbounded_start) !! "q0")
  = Some (Some 0)
  /\ exists prompt,
       In (ChatCompletionsCreate prompt) (Run.trace (snd run))
       /\ ~ spoiler_free 0 Sample.rows prompt.
Proof.
  split; [reflexivity|].
  eexists. split.
  - vm_compute. do 4 right. left. reflexivity.
  - intros Hfree.
    specialize (Hfree _ (Sample.chapter 4 "The gardener is the murderer")
                  "The gardener is the murderer" (or_intror (or_introl eq_refl))
                  eq_refl eq_refl).
    assert (Hlt : 0 < JS.num (Chapter.order (Sample.chapter 4 "The gardener is the murderer")))
      by (cbn; lia).
    specialize (Hfree Hlt). vm_compute in Hfree. discriminate Hfree.
Qed.

(* ===================================================================== *)
(** * Further properties of the code *)
(* ===================================================================== *)

(** ** services/ai.service.ts: the invocation as a function *)

Ltac caught_here questionId :=
  failed_here questionId; unfold Plan.caught; cbn [fst snd];
  rewrite <- ?app_assoc; cbn [app];
  repeat split; try reflexivity;
  unfold replay; rewrite ?fold_left_app; reflexivity.

Section plan.
Context {DB : Type} `{!Supabase DB} (rt : Runtime).

(** Symbolic execution of [generateAnswer] against [Plan.invocation]: the
    result and the calls. *)
Lemma generateAnswer_follows_plan (questionId : string) (s : Run.St DB) :
  let run := aiService.generateAnswer rt questionId s in
  let plan :=
    Plan.invocation rt questionId
      (fst (questions_select_single questionId (Run.db s)))
      (fun title_id =>
         fst (chapter_embeddings_select title_id
                (replay_call (Run.db s) (QuestionsSelectSingle questionId)))) in
  fst run = fst plan
  /\ Run.trace (snd run) = Run.trace s ++ snd plan.
Proof.
  intros run plan. subst run plan.
  unfold aiService.generateAnswer, questionsService.getQuestionById, Plan.invocation. run.
  change (snd (questions_select_single questionId (Run.db s)))
    with (replay_call (Run.db s) (QuestionsSelectSingle questionId)).
  set (d0 := replay_call (Run.db s) (QuestionsSelectSingle questionId)).
  assert (Hd0 : snd (questions_select_single questionId (Run.db s)) = d0) by reflexivity.
  destruct (questions_select_single questionId (Run.db s)) as [[response|e] d0'].
  all: cbn [snd] in Hd0; subst d0'; cbn [fst]; run;
    cbn [ApiResponse.success ApiResponse.data ApiResponse.error JS.show_optional].
  2:{ caught_here questionId. }
  destruct (Pg.error response) as [error|]; run;
    cbn [ApiResponse.success ApiResponse.data ApiResponse.error JS.show_optional].
  { caught_here questionId. }
  destruct (Pg.data response) as [data|]; run.
  2:{ caught_here questionId. }
  unfold Plan.fetch_and_score.
  set (title_id := Question.title_id (QuestionWithTitle.row data)).
  set (d1 := replay_call d0 (ChapterEmbeddingsSelect title_id)).
  assert (Hd1 : snd (chapter_embeddings_select title_id d0) = d1) by reflexivity.
  destruct (chapter_embeddings_select title_id d0) as [[fetched|e] d1'].
  all: cbn [snd] in Hd1; subst d1'; cbn [fst]; run.
  2:{ caught_here questionId. }
  destruct (Pg.error fetched) as [error|]; run.
  { caught_here questionId. }
  destruct (Pg.data fetched) as [[|item0 items]|]; run.
  1,3: caught_here questionId.
  unfold Plan.score_and_generate.
  destruct (forEach_push rt _ (item0 :: items) []) as [chaptersWithEmbeddings|e]; run.
  2:{ caught_here questionId. }
  destruct (length chaptersWithEmbeddings =? 0)%nat; run.
  { caught_here questionId. }
  destruct (negb (truthy_string _)); run.
  { caught_here questionId. }
  unfold getEmbedding. run.
  destruct (axios_post rt _) as [[questionEmbedding|]|e]; run.
  2,3: caught_here questionId.
  destruct (length (relevantChapters_of _) =? 0)%nat; run.
  { caught_here questionId. }
  unfold Plan.generate.
  match goal with
  | |- context [@questionsService.updateQuestionStatus ?D ?c rt questionId pending ?s1] =>
      destruct (@updateQuestionStatus_run D c rt questionId pending s1) as (r1 & ->)
  end.
  run.
  destruct (chat_completions_create rt _) as [answer|e]; run.
  2:{ caught_here questionId. }
  destruct (negb (truthy_string answer)); run.
  { caught_here questionId. }
  match goal with
  | |- context [@questionsService.updateQuestionAnswer ?D ?c rt questionId ?a ?s1] =>
      destruct (@updateQuestionAnswer_run D c rt questionId a s1) as (r2 & ->)
  end.
  run.
  match goal with
  | |- context [@questionsService.updateQuestionStatus ?D ?c rt questionId answered ?s1] =>
      destruct (@updateQuestionStatus_run D c rt questionId answered s1) as (r3 & ->)
  end.
  run. cbn [fst snd]. rewrite <- ?app_assoc. cbn [app].
  repeat split; reflexivity.
Qed.

(** X1: the result of an invocation, the calls it makes and the store it
    leaves are those of [Plan.invocation]: they are determined by what the
    store answers to the read of the question and to the read of the chapter
    embeddings and by the two providers; what the store answers to the
    pending, answer and status writes changes neither the result nor the
    calls. *)
Theorem generateAnswer_plan (questionId : string) (s : Run.St DB) :
  let run := aiService.generateAnswer rt questionId s in
  let plan :=
    Plan.invocation rt questionId
      (fst (questions_select_single questionId (Run.db s)))
      (fun title_id =>
         fst (chapter_embeddings_select title_id
                (replay_call (Run.db s) (QuestionsSelectSingle questionId)))) in
  fst run = fst plan
  /\ Run.trace (snd run) = Run.trace s ++ snd plan
  /\ Run.db (snd run) = replay (snd plan) (Run.db s).
Proof.
  intros run plan.
  destruct (generateAnswer_follows_plan questionId s) as (Hres & Htr).
  destruct (generateAnswer_path rt questionId s) as (tr & Htr' & Hdb & _).
  fold run in Hres, Htr, Htr', Hdb. fold plan in Hres, Htr.
  assert (Hcalls : tr = snd plan).
  { apply (app_inv_head (Run.trace s)). now rewrite <- Htr, <- Htr'. }
  subst tr. auto.
Qed.

End plan.

(** ** services/ai.service.ts: failures before the providers *)

Section early.
Context {DB : Type} `{!Supabase DB} (rt : Runtime).

Lemma forEach_push_malformed (chapter_limit : option Z) (items : list EmbeddingRow.t)
    (acc : list Candidate.t) :
  ~ parseable rt items ->
  forEach_push rt chapter_limit items acc = JS.Throw "Invalid embedding format in DB".
Proof.
  revert acc. induction items as [|item rest IH]; intros acc Hbad.
  - exfalso. apply Hbad. constructor.
  - simpl. destruct (parse_embedding rt (EmbeddingRow.embedding item)) as [v|e] eqn:Hparse.
    + assert (Hrest : ~ parseable rt rest).
      { intros Hrest. apply Hbad. constructor; eauto. }
      destruct (chapter_of item) as [c|]; [|now apply IH].
      destruct (le_bound _ _); now apply IH.
    + unfold parse_embedding in Hparse.
      destruct (EmbeddingRow.embedding item) as [v|str]; [discriminate|].
      destruct (JSON_parse rt str); [discriminate|]. injection Hparse as <-. reflexivity.
Qed.

(** X2: when the store has returned the question and answered the read of
    the chapter embeddings, an invocation that finds no rows, a stored embedding
    that does not parse (even of a chapter beyond the limit), no chapter
    within the limit, or an empty question text throws the error of that
    case after exactly three calls: the two reads and the failed write. It
    calls neither provider and never writes [pending]. *)
Theorem generateAnswer_stops_before_providers (questionId : string) (s : Run.St DB)
    (response : Pg.Response QuestionWithTitle.t) (data : QuestionWithTitle.t)
    (fetched : Pg.Response (list EmbeddingRow.t)) (items : list EmbeddingRow.t) :
  let run := aiService.generateAnswer rt questionId s in
  let title_id := Question.title_id (QuestionWithTitle.row data) in
  let chapter_limit := Question.chapter_limit (QuestionWithTitle.row data) in
  let question_text := Question.question_text (QuestionWithTitle.row data) in
  fst (questions_select_single questionId (Run.db s)) = JS.Ok response ->
  Pg.error response = None -> Pg.data response = Some data ->
  fst (chapter_embeddings_select title_id
         (replay_call (Run.db s) (QuestionsSelectSingle questionId))) = JS.Ok fetched ->
  Pg.error fetched = None -> Pg.data fetched = Some items ->
  forall e,
    (items = [] /\ e = "Failed to fetch chapter embeddings: undefined")
    \/ (items <> [] /\ ~ parseable rt items /\ e = "Invalid embedding format in DB")
    \/ (items <> [] /\ forEach_push rt chapter_limit items [] = JS.Ok []
        /\ e = "No chapters available within chapter limit: " +:+ JS.show_num chapter_limit)
    \/ (exists kept, forEach_push rt chapter_limit items [] = JS.Ok kept /\ kept <> []
        /\ truthy_string question_text = false
        /\ e = "Question text is null or empty") ->
    fst run = JS.Throw e
    /\ Run.trace (snd run)
       = Run.trace s ++ [QuestionsSelectSingle questionId; ChapterEmbeddingsSelect title_id;
                         status_write rt questionId failed].
Proof.
  intros run title_id chapter_limit question_text Hsel Herr Hdata Hfetch Hferr Hitems e Hcase.
  destruct (generateAnswer_follows_plan rt questionId s) as (Hres & Htr).
  fold run in Hres, Htr. rewrite Hres, Htr. clear Hres Htr.
  unfold Plan.invocation. rewrite Hsel, Herr, Hdata.
  unfold Plan.fetch_and_score. fold title_id chapter_limit question_text.
  rewrite Hfetch, Hferr, Hitems.
  destruct Hcase as [[-> ->] | [(Hne & Hbad & ->) | [(Hne & Hnone & ->) | (kept & Hkept & Hne & Htext & ->)]]].
  - split; reflexivity.
  - destruct items as [|item0 items']; [contradiction|].
    unfold Plan.score_and_generate.
    rewrite (forEach_push_malformed chapter_limit _ [] Hbad). split; reflexivity.
  - destruct items as [|item0 items']; [contradiction|].
    unfold Plan.score_and_generate. rewrite Hnone. split; reflexivity.
  - destruct items as [|item0 items'].
    { cbn in Hkept. injection Hkept as <-. contradiction. }
    unfold Plan.score_and_generate. rewrite Hkept.
    destruct kept as [|k kept']; [contradiction|]. cbn [length Nat.eqb].
    rewrite Htext. split; reflexivity.
Qed.

End early.

(** ** services/ai.service.ts: what an invocation leaves alone *)

Section mem_frame.
Context (fault : Event -> Mem.Fault).

Lemma Mem_update_effect (d : Mem.DB) (questionId : string) (u : UpdateQuestion) :
  replay_call (Supabase0 := Mem.client fault) d (QuestionsUpdate questionId u)
  = match fault (QuestionsUpdate questionId u), Mem.questions d !! questionId with
    | Mem.NoFault, Some q =>
        Mem.set_questions (<[questionId := Mem.apply_update u q]> (Mem.questions d)) d
    | _, _ => d
    end.
Proof.
  cbn [replay_call questions_update Mem.client]. unfold Mem.guarded, Mem.update_single.
  destruct (fault _); [destruct (Mem.questions d !! questionId)|..]; reflexivity.
Qed.

Lemma touched_only_refl (questionId : string) (d : Mem.DB) : touched_only questionId d d.
Proof.
  unfold touched_only, same_reading. repeat split; try reflexivity.
  destruct (Mem.questions d !! questionId) as [q|]; [|reflexivity].
  exists q. repeat split; reflexivity.
Qed.

Lemma touched_only_trans (questionId : string) (d1 d2 d3 : Mem.DB) :
  touched_only questionId d1 d2 -> touched_only questionId d2 d3 ->
  touched_only questionId d1 d3.
Proof.
  unfold touched_only, same_reading.
  intros (Ht & Hc & Hu & Ho & Hq) (Ht' & Hc' & Hu' & Ho' & Hq').
  repeat split; try congruence.
  - intros id Hne. rewrite Ho', Ho by exact Hne. reflexivity.
  - destruct (Mem.questions d1 !! questionId) as [q|].
    + destruct Hq as (q2 & Hq2 & H1 & H2 & H3 & H4 & H5 & H6). rewrite Hq2 in Hq'.
      destruct Hq' as (q3 & Hq3 & H1' & H2' & H3' & H4' & H5' & H6').
      exists q3. repeat split; congruence.
    + rewrite Hq in Hq'. exact Hq'.
Qed.

Lemma touched_only_update (questionId : string) (u : UpdateQuestion) (d : Mem.DB) :
  touched_only questionId d
    (replay_call (Supabase0 := Mem.client fault) d (QuestionsUpdate questionId u)).
Proof.
  rewrite Mem_update_effect.
  destruct (fault _); try apply touched_only_refl.
  destruct (Mem.questions d !! questionId) as [q|] eqn:Hq; [|apply touched_only_refl].
  unfold touched_only, same_reading. cbn [Mem.set_questions Mem.titles Mem.chapter_embeddings
    Mem.uuids Mem.questions].
  repeat split.
  - intros id Hne. now apply lookup_insert_ne.
  - rewrite Hq. exists (Mem.apply_update u q). rewrite lookup_insert_eq.
    repeat split; reflexivity.
Qed.

Lemma touched_only_call (questionId : string) (ev : Event) (d : Mem.DB) :
  match ev with
  | QuestionsUpdate id _ => id = questionId
  | QuestionsSelectSingle _ | ChapterEmbeddingsSelect _
  | HuggingFacePost _ | ChatCompletionsCreate _ => True
  | _ => False
  end ->
  touched_only questionId d (replay_call (Supabase0 := Mem.client fault) d ev).
Proof.
  destruct ev; try contradiction; intros Hev.
  - rewrite Mem_select_single_keeps. apply touched_only_refl.
  - subst. apply touched_only_update.
  - rewrite Mem_select_embeddings_keeps. apply touched_only_refl.
  - apply touched_only_refl.
  - apply touched_only_refl.
Qed.

Lemma touched_only_replay (questionId : string) (tr : list Event) (d : Mem.DB) :
  Forall (fun ev =>
    match ev with
    | QuestionsUpdate id _ => id = questionId
    | QuestionsSelectSingle _ | ChapterEmbeddingsSelect _
    | HuggingFacePost _ | ChatCompletionsCreate _ => True
    | _ => False
    end) tr ->
  touched_only questionId d (replay (Supabase0 := Mem.client fault) tr d).
Proof.
  intros Hall. revert d. induction Hall as [|ev tr Hev Hall IH]; intros d.
  - apply touched_only_refl.
  - cbn [replay fold_left]. eapply touched_only_trans; [|apply IH].
    now apply touched_only_call.
Qed.

(** X3: on the in-memory store, whatever the store's failures, an
    invocation leaves every other question, the titles and the chapter
    embeddings as they were, inserts and deletes nothing, and changes at
    most the answer text, the status and the update time of the question it
    was called for: its id, owner, title, chapter limit, text and creation
    time stay. *)
Theorem generateAnswer_touches_one_question (rt : Runtime) (questionId : string)
    (s : Run.St Mem.DB) :
  touched_only questionId (Run.db s)
    (Run.db (snd (aiService.generateAnswer (Supabase0 := Mem.client fault) rt questionId s))).
Proof.
  destruct (generateAnswer_path (Supabase0 := Mem.client fault) rt questionId s)
    as (tr & _ & -> & Hpath).
  apply touched_only_replay.
  destruct Hpath; unfold status_write, answer_write; repeat constructor.
Qed.

End mem_frame.

(** ** services/ai.service.ts: how an invocation ends *)

Section outcome.
Context {DB : Type} `{!Supabase DB} (rt : Runtime).

(** X4: the result of an invocation can be read off the last write it issued:
    it returns [answer] exactly when its calls end with the write of that
    answer followed by the [answered] write, and then it has written
    [pending] before and never [failed]; it throws exactly when its last
    call is the [failed] write, and then it has written no answer. Every
    invocation ends in one of the two ways, after at most seven calls. *)
Theorem generateAnswer_outcome_in_last_write (questionId : string) (s : Run.St DB) :
  let run := aiService.generateAnswer rt questionId s in
  exists calls,
    Run.trace (snd run) = Run.trace s ++ calls
    /\ (length calls <= 7)%nat
    /\ match fst run with
       | JS.Ok answer =>
           exists before,
             calls = before ++ [answer_write rt questionId answer;
                                status_write rt questionId answered]
             /\ In (status_write rt questionId pending) before
             /\ ~ In (status_write rt questionId failed) calls
       | JS.Throw _ =>
           exists before,
             calls = before ++ [status_write rt questionId failed]
             /\ (forall answer, ~ In (answer_write rt questionId answer) calls)
             /\ ~ In (status_write rt questionId answered) calls
       end.
Proof.
  intros run. subst run.
  destruct (generateAnswer_path rt questionId s) as (tr & Htr & _ & Hpath).
  exists tr. split; [exact Htr|].
  destruct Hpath; unfold status_write, answer_write.
  - split; [simpl; lia|]. eexists [_]. cbn. intuition discriminate.
  - split; [simpl; lia|]. eexists [_; _]. cbn. intuition discriminate.
  - split; [simpl; lia|]. eexists [_; _; _]. cbn. intuition discriminate.
  - split; [simpl; lia|]. eexists [_; _; _; _; _]. cbn. intuition discriminate.
  - split; [simpl; lia|]. eexists [_; _; _; _; _]. cbn. intuition discriminate.
Qed.

(** X5: the invocation reads the question for its title, its chapter limit and
    its text only: on two stores, possibly of different kinds, that return
    the question with these three columns alike and the same chapter rows, it
    returns or throws the same and makes the same calls, whatever the status,
    the previous answer or the owner of the question. In particular a
    question already answered is answered again. *)
Theorem generateAnswer_reads_three_columns {DB' : Type} `{!Supabase DB'}
    (questionId : string) (s : Run.St DB) (s' : Run.St DB')
    (r r' : Pg.Response QuestionWithTitle.t) (data data' : QuestionWithTitle.t) :
  let run := aiService.generateAnswer rt questionId s in
  let run' := aiService.generateAnswer rt questionId s' in
  let title_id := Question.title_id (QuestionWithTitle.row data) in
  fst (questions_select_single questionId (Run.db s)) = JS.Ok r ->
  Pg.error r = None -> Pg.data r = Some data ->
  fst (questions_select_single questionId (Run.db s')) = JS.Ok r' ->
  Pg.error r' = None -> Pg.data r' = Some data' ->
  same_reading (QuestionWithTitle.row data) (QuestionWithTitle.row data') ->
  fst (chapter_embeddings_select title_id
         (replay_call (Run.db s') (QuestionsSelectSingle questionId)))
  = fst (chapter_embeddings_select title_id
           (replay_call (Run.db s) (QuestionsSelectSingle questionId))) ->
  fst run' = fst run
  /\ exists calls,
       Run.trace (snd run) = Run.trace s ++ calls
       /\ Run.trace (snd run') = Run.trace s' ++ calls.
Proof.
  intros run run' title_id Hsel Herr Hdata Hsel' Herr' Hdata' (Ht & Hl & Hq) Hfetch.
  destruct (generateAnswer_follows_plan rt questionId s) as (Hres & Htr).
  destruct (generateAnswer_follows_plan rt questionId s') as (Hres' & Htr').
  fold run in Hres, Htr. fold run' in Hres', Htr'.
  rewrite Hres, Hres', Htr, Htr'. clear Hres Hres' Htr Htr'.
  unfold Plan.invocation. rewrite Hsel, Herr, Hdata, Hsel', Herr', Hdata'.
  unfold Plan.fetch_and_score. rewrite Ht, Hl, Hq. fold title_id. rewrite Hfetch.
  split; [reflexivity|]. eexists. split; reflexivity.
Qed.

End outcome.

Section mem_round_trip.
Context (fault : Event -> Mem.Fault) (rt : Runtime).

(** X6: on the in-memory store, when an invocation returns an answer and the
    store accepts the write that carries it, the question is left with that
    answer, the status [answered] and the time of the write. A later
    [getQuestionById], on a store whose failures by then are those of
    [later], gives exactly this row when the store answers the read, and
    reports the failure otherwise. *)
Theorem generateAnswer_answer_read_back (questionId : string) (s : Run.St Mem.DB)
    (answer : string) (later : Event -> Mem.Fault) :
  let run := aiService.generateAnswer (Supabase0 := Mem.client fault) rt questionId s in
  fst run = JS.Ok answer ->
  fault (answer_write rt questionId answer) = Mem.NoFault ->
  exists q,
    Mem.questions (Run.db (snd run)) !! questionId = Some q
    /\ Question.answer_text q = Some answer
    /\ Question.status q = Some answered
    /\ Question.updated_at q = now_iso rt
    /\ exists r,
         fst (questionsService.getQuestionById (Supabase0 := Mem.client later)
                questionId (snd run)) = JS.Ok r
         /\ match later (QuestionsSelectSingle questionId) with
            | Mem.NoFault =>
                ApiResponse.success r = true
                /\ QuestionWithTitle.row <$> ApiResponse.data r = Some q
            | Mem.Failing message =>
                ApiResponse.success r = false /\ ApiResponse.error r = Some message
            | Mem.Rejecting _ =>
                ApiResponse.success r = false
                /\ ApiResponse.error r = Some "Failed to fetch question"
            end.
Proof.
  intros run Hok Hfault. subst run.
  destruct (generateAnswer_path (Supabase0 := Mem.client fault) rt questionId s)
    as (tr & _ & Hdb & Hpath).
  rewrite Hok in Hpath.
  set (s1 := snd (aiService.generateAnswer (Supabase0 := Mem.client fault) rt questionId s))
    in *.
  clearbody s1. clear Hok. destruct s1 as [d calls]. cbn [Run.db] in *. subst d.
  inversion Hpath as [| | | |title_id question_text prompt answer' Hassembled _ _]; subst.
  destruct Hassembled as (response & data & _ & _ & _ & _ & Hsel & Hdata & _).
  pose proof (Mem_select_single_found fault _ _ _ _ Hsel Hdata) as Hq0.
  cbn [replay fold_left].
  rewrite Mem_select_single_keeps, Mem_select_embeddings_keeps.
  repeat match goal with
  | |- context [replay_call ?d (HuggingFacePost ?x)] =>
      change (replay_call d (HuggingFacePost x)) with d
  | |- context [replay_call ?d (ChatCompletionsCreate ?x)] =>
      change (replay_call d (ChatCompletionsCreate x)) with d
  end.
  set (d1 := replay_call (Run.db s) (status_write rt questionId pending)).
  assert (Hq1 : is_Some (Mem.questions d1 !! questionId)).
  { apply Mem_update_present. eauto. }
  destruct Hq1 as [q1 Hq1].
  set (d2 := replay_call d1 (answer_write rt questionId answer)).
  pose proof (Mem_update_applied fault d1 questionId _ q1 Hfault Hq1) as Hq2.
  fold (answer_write rt questionId answer) in Hq2. fold d2 in Hq2.
  set (d3 := replay_call d2 (status_write rt questionId answered)).
  assert (Hq3 : exists q, Mem.questions d3 !! questionId = Some q
                  /\ Question.answer_text q = Some answer
                  /\ Question.status q = Some answered
                  /\ Question.updated_at q = now_iso rt).
  { subst d3. unfold status_write at 1.
    destruct (Mem_update_lookup fault d2 questionId
                {| upd_answer_text := None; upd_status := Some answered;
                   upd_updated_at := now_iso rt |} questionId)
      as [-> | (_ & _ & q & Hq & ->)].
    - rewrite Hq2. eexists. split; [reflexivity|]. repeat split.
    - rewrite Hq2 in Hq. injection Hq as <-. eexists. split; [reflexivity|]. repeat split. }
  destruct Hq3 as (q & Hq & Hanswer & Hstatus & Hat).
  exists q. repeat (split; [assumption|]).
  unfold questionsService.getQuestionById.
  cbv beta iota zeta delta [Run.bind Run.throw Run.ret Run.lift Run.external Run.query
    Run.try_catch]. cbn [Run.db Run.trace fst snd].
  cbn [questions_select_single Mem.client]. unfold Mem.guarded, Mem.select_single.
  destruct (later (QuestionsSelectSingle questionId)) as [|message|e].
  - rewrite Hq. cbn. eexists. repeat split.
  - cbn. eexists. repeat split.
  - cbn. eexists. repeat split.
Qed.

End mem_round_trip.

(** ** utils/embedding.util.ts and the ranking: dimensions and counts *)

Module NaNFacts.

Lemma add_nan_l (x : float) : (nan + x)%float = nan.
Proof.
  apply Prim2SF_inj. rewrite add_spec. change (Prim2SF nan) with S754_nan.
  reflexivity.
Qed.

Lemma add_nan_r (x : float) : (x + nan)%float = nan.
Proof.
  apply Prim2SF_inj. rewrite add_spec. change (Prim2SF nan) with S754_nan.
  unfold SF64add, SFadd. destruct (Prim2SF x) as [[]|[]| |]; reflexivity.
Qed.

Lemma mul_nan_r (x : float) : (x * nan)%float = nan.
Proof.
  apply Prim2SF_inj. rewrite mul_spec. change (Prim2SF nan) with S754_nan.
  unfold SF64mul, SFmul. destruct (Prim2SF x); reflexivity.
Qed.

Lemma div_nan_l (x : float) : (nan / x)%float = nan.
Proof.
  apply Prim2SF_inj. rewrite div_spec. change (Prim2SF nan) with S754_nan.
  reflexivity.
Qed.

End NaNFacts.

Section dimensions.
Import NaNFacts.

Lemma products_nan (b : list float) (a : list float) (i : nat) :
  JS.reduce_from (fun sum x j => (sum + x * JS.index b j)%float) i a nan = nan.
Proof.
  revert i. induction a as [|x a IH]; intros i; simpl; [reflexivity|].
  now rewrite add_nan_l.
Qed.

Lemma products_past_the_end (a b : list float) (i : nat) (acc : float) :
  (i <= length b < i + length a)%nat ->
  JS.reduce_from (fun sum x j => (sum + x * JS.index b j)%float) i a acc = nan.
Proof.
  revert i acc. induction a as [|x a IH]; intros i acc Hlen; simpl in *.
  - lia.
  - destruct (Nat.le_gt_cases (length b) i) as [Hout|Hin].
    + unfold JS.index at 2. rewrite (nth_overflow b nan Hout).
      rewrite mul_nan_r, add_nan_r. apply products_nan.
    + apply IH. lia.
Qed.

Lemma products_as_pairs_le (a b : list float) (i : nat) (acc : float) :
  (i + length a <= length b)%nat ->
  JS.reduce_from (fun sum x j => (sum + x * JS.index b j)%float) i a acc
  = fold_left (fun s p => (s + fst p * snd p)%float) (combine a (drop i b)) acc.
Proof.
  revert i acc. induction a as [|x a IH]; intros i acc Hlen; simpl; [reflexivity|].
  simpl in Hlen.
  assert (Hi : (i < length b)%nat) by lia.
  destruct (drop i b) as [|y rest] eqn:Hdrop.
  { apply (f_equal length) in Hdrop. rewrite length_drop in Hdrop. simpl in Hdrop. lia. }
  assert (Hy : JS.index b i = y).
  { unfold JS.index. rewrite <- (take_drop i b) at 1.
    rewrite app_nth2; rewrite length_take; [|lia].
    replace (i - i `min` length b)%nat with 0%nat by lia.
    now rewrite Hdrop. }
  assert (Hrest : drop (S i) b = rest).
  { replace (S i) with (i + 1)%nat by lia. rewrite <- drop_drop, Hdrop. reflexivity. }
  simpl. rewrite IH by lia. now rewrite Hy, Hrest.
Qed.

Lemma combine_take_l {A B : Type} (a : list A) (b : list B) :
  combine a (take (length a) b) = combine a b.
Proof.
  revert b. induction a as [|x a IH]; intros [|y b]; simpl; try reflexivity.
  now rewrite IH.
Qed.

(** X9: vectors of different dimensions are not rejected. When [vecB] is the
    shorter one the result is NaN, whatever the numbers; when [vecA] is the
    shorter one the components of [vecB] past its end are left out of the
    dot product but counted in the magnitude of [vecB]. *)
Theorem cosineSimilarity_dimension_mismatch (vecA vecB : list float) :
  ((length vecB < length vecA)%nat -> cosineSimilarity vecA vecB = nan)
  /\ ((length vecA <= length vecB)%nat ->
      cosineSimilarity vecA vecB
      = (dot vecA (take (length vecA) vecB) / (norm vecA * norm vecB))%float).
Proof.
  unfold cosineSimilarity, JS.reduce. split; intros Hlen.
  - rewrite products_past_the_end by (simpl; lia). apply div_nan_l.
  - rewrite products_as_pairs_le by (simpl; lia).
    rewrite !squares_as_fold, drop_0. unfold dot, norm.
    now rewrite combine_take_l.
Qed.

End dimensions.

(** X8: the selection holds five of the candidates, or all of them when
    there are fewer: it is empty only when there was no candidate, which
    [generateAnswer] has excluded before, so that its check
    [relevantChapters.length === 0] never fires. *)
Theorem relevantChapters_count (questionEmbedding : list float)
    (chaptersWithEmbeddings : list Candidate.t) :
  let relevantChapters :=
    relevantChapters_of (map (score questionEmbedding) chaptersWithEmbeddings) in
  length relevantChapters = Nat.min 5 (length chaptersWithEmbeddings)
  /\ (relevantChapters = [] <-> chaptersWithEmbeddings = []).
Proof.
  intros relevantChapters.
  assert (Hlen : length relevantChapters = Nat.min 5 (length chaptersWithEmbeddings)).
  { unfold relevantChapters, relevantChapters_of.
    now rewrite length_take, sort_length, length_map. }
  split; [exact Hlen|].
  split; intros Hnil; rewrite Hnil in *; simpl in *.
  - destruct chaptersWithEmbeddings; [reflexivity|simpl in Hlen; lia].
  - destruct relevantChapters; [reflexivity|simpl in Hlen; lia].
Qed.

Section embedding_failure.
Context {DB : Type} `{!Supabase DB} (rt : Runtime).

(** X7: when the embedding provider fails in any way (it throws, or answers with
    something that is not an array), an invocation that got as far as
    calling it throws the one message of [getEmbedding], never the inner
    one, after four calls: it has not written [pending] and does not call
    the generation provider. *)
Theorem generateAnswer_embedding_failure (questionId : string) (s : Run.St DB)
    (response : Pg.Response QuestionWithTitle.t) (data : QuestionWithTitle.t)
    (fetched : Pg.Response (list EmbeddingRow.t)) (items : list EmbeddingRow.t)
    (kept : list Candidate.t) (question_text : string) :
  let run := aiService.generateAnswer rt questionId s in
  let title_id := Question.title_id (QuestionWithTitle.row data) in
  let chapter_limit := Question.chapter_limit (QuestionWithTitle.row data) in
  fst (questions_select_single questionId (Run.db s)) = JS.Ok response ->
  Pg.error response = None -> Pg.data response = Some data ->
  fst (chapter_embeddings_select title_id
         (replay_call (Run.db s) (QuestionsSelectSingle questionId))) = JS.Ok fetched ->
  Pg.error fetched = None -> Pg.data fetched = Some items ->
  forEach_push rt chapter_limit items [] = JS.Ok kept -> kept <> [] ->
  Question.question_text (QuestionWithTitle.row data) = Some question_text ->
  question_text <> "" ->
  (forall questionEmbedding, axios_post rt question_text <> JS.Ok (Some questionEmbedding)) ->
  fst run = JS.Throw "Failed to generate embedding using Hugging Face"
  /\ Run.trace (snd run)
     = Run.trace s ++ [QuestionsSelectSingle questionId; ChapterEmbeddingsSelect title_id;
                       HuggingFacePost question_text; status_write rt questionId failed].
Proof.
  intros run title_id chapter_limit Hsel Herr Hdata Hfetch Hferr Hitems Hkept Hne Htext
    Hnonempty Hfail.
  destruct (generateAnswer_follows_plan rt questionId s) as (Hres & Htr).
  fold run in Hres, Htr. rewrite Hres, Htr. clear Hres Htr.
  unfold Plan.invocation. rewrite Hsel, Herr, Hdata.
  unfold Plan.fetch_and_score. fold title_id chapter_limit.
  rewrite Hfetch, Hferr, Hitems.
  destruct items as [|item0 items'].
  { cbn in Hkept. injection Hkept as <-. contradiction. }
  unfold Plan.score_and_generate. rewrite Hkept.
  destruct kept as [|k kept']; [contradiction|]. cbn [length Nat.eqb].
  rewrite Htext. cbn [truthy_string].
  change (default "" (Some question_text)) with question_text.
  destruct (String.eqb_spec question_text "") as [|_]; [contradiction|]. cbn [negb].
  destruct (axios_post rt question_text) as [[v|]|e].
  - exfalso. now apply (Hfail v).
  - split; reflexivity.
  - split; reflexivity.
Qed.

End embedding_failure.

(** ** Instances on the sample data *)

Lemma generateAnswer_stops_before_providers_witness :
  let run := aiService.generateAnswer (Supabase0 := Mem.client Sample.no_fault)
               Sample.runtime "q2" Scenario.start in
  fst run = JS.Throw "Question text is null or empty"
  /\ Run.trace (snd run)
     = [QuestionsSelectSingle "q2"; ChapterEmbeddingsSelect "t1";
        status_write Sample.runtime "q2" failed].
Proof.
  eapply (generateAnswer_stops_before_providers (Supabase0 := Mem.client Sample.no_fault)
            Sample.runtime "q2" Scenario.start _ (QuestionWithTitle.mk Scenario.blank None)).
  - vm_compute. reflexivity.
  - reflexivity.
  - reflexivity.
  - vm_compute. reflexivity.
  - reflexivity.
  - reflexivity.
  - right. right. right. eexists. split; [vm_compute; reflexivity|].
    split; [discriminate|]. split; reflexivity.
Defined.

Lemma generateAnswer_reads_three_columns_witness :
  let run := aiService.generateAnswer (Supabase0 := Mem.client Sample.no_fault)
               Sample.runtime "q1" Sample.start in
  let run' := aiService.generateAnswer (Supabase0 := Mem.client Sample.no_fault)
                Sample.runtime "q1" (Run.mkSt Scenario.answered_store []) in
  fst run' = fst run
  /\ exists calls,
       Run.trace (snd run) = [] ++ calls /\ Run.trace (snd run') = [] ++ calls.
Proof.
  eapply (generateAnswer_reads_three_columns (Supabase0 := Mem.client Sample.no_fault)
            (Supabase1 := Mem.client Sample.no_fault)
            Sample.runtime "q1" Sample.start (Run.mkSt Scenario.answered_store []) _ _
            (QuestionWithTitle.mk Sample.question None)
            (QuestionWithTitle.mk Scenario.answered_before None)).
  - vm_compute. reflexivity.
  - reflexivity.
  - reflexivity.
  - vm_compute. reflexivity.
  - reflexivity.
  - reflexivity.
  - repeat split.
  - vm_compute. reflexivity.
Defined.

Lemma generateAnswer_answer_read_back_witness :
  let run := aiService.generateAnswer (Supabase0 := Mem.client Sample.no_fault)
               Sample.runtime "q1" Sample.start in
  exists q,
    Mem.questions (Run.db (snd run)) !! "q1" = Some q
    /\ Question.answer_text q = Some "Nobody knows yet."
    /\ Question.status q = Some answered
    /\ Question.updated_at q = now_iso Sample.runtime
    /\ exists r,
         fst (questionsService.getQuestionById (Supabase0 := Mem.client Sample.no_fault)
                "q1" (snd run)) = JS.Ok r
         /\ ApiResponse.success r = true
         /\ QuestionWithTitle.row <$> ApiResponse.data r = Some q.
Proof.
  apply (generateAnswer_answer_read_back Sample.no_fault Sample.runtime "q1" Sample.start
           "Nobody knows yet." Sample.no_fault).
  - vm_compute. reflexivity.
  - reflexivity.
Defined.

Lemma generateAnswer_embedding_failure_witness :
  let run := aiService.generateAnswer (Supabase0 := Mem.client Sample.no_fault)
               Scenario.offline "q1" Sample.start in
  fst run = JS.Throw "Failed to generate embedding using Hugging Face"
  /\ Run.trace (snd run)
     = [QuestionsSelectSingle "q1"; ChapterEmbeddingsSelect "t1";
        HuggingFacePost "Who broke the vase?"; status_write Scenario.offline "q1" failed].
Proof.
  eapply (generateAnswer_embedding_failure (Supabase0 := Mem.client Sample.no_fault)
            Scenario.offline "q1" Sample.start _ (QuestionWithTitle.mk Sample.question None)).
  - vm_compute. reflexivity.
  - reflexivity.
  - reflexivity.
  - vm_compute. reflexivity.
  - reflexivity.
  - reflexivity.
  - vm_compute. reflexivity.
  - discriminate.
  - reflexivity.
  - discriminate.
  - intros v. discriminate.
Defined.

(** ** services/ai.service.ts: the status an invocation leaves *)

Section final_status.
Context (fault : Event -> Mem.Fault) (rt : Runtime).

Lemma replay_snoc (tr : list Event) (ev : Event) (d : Mem.DB) :
  replay (Supabase0 := Mem.client fault) (tr ++ [ev]) d
  = replay_call (Supabase0 := Mem.client fault)
      (replay (Supabase0 := Mem.client fault) tr d) ev.
Proof. unfold replay. now rewrite fold_left_app. Qed.

(** The last write of an invocation, when the store accepts it, decides the
    status. *)
Lemma Mem_status_after (questionId : string) (before : list Event) (st : Status)
    (d : Mem.DB) (q : Question.t) :
  Forall (fun ev =>
    match ev with
    | QuestionsUpdate id _ => id = questionId
    | QuestionsSelectSingle _ | ChapterEmbeddingsSelect _
    | HuggingFacePost _ | ChatCompletionsCreate _ => True
    | _ => False
    end) before ->
  Mem.questions d !! questionId = Some q ->
  fault (status_write rt questionId st) = Mem.NoFault ->
  exists q',
    Mem.questions (replay (Supabase0 := Mem.client fault)
                     (before ++ [status_write rt questionId st]) d) !! questionId = Some q'
    /\ Question.status q' = Some st
    /\ Question.user_id q' = Question.user_id q.
Proof.
  intros Hbefore Hq Hfault. rewrite replay_snoc.
  destruct (touched_only_replay fault questionId before d Hbefore) as (_ & _ & _ & _ & Hsame).
  rewrite Hq in Hsame. destruct Hsame as (q1 & Hq1 & _ & Huser & _).
  eexists. split; [apply (Mem_update_applied fault _ _ _ q1 Hfault Hq1)|].
  split; [reflexivity|exact Huser].
Qed.

Lemma generateAnswer_ends_with_status_write (questionId : string) (s : Run.St Mem.DB) :
  let run := aiService.generateAnswer (Supabase0 := Mem.client fault) rt questionId s in
  exists before,
    Run.db (snd run)
    = replay (Supabase0 := Mem.client fault)
        (before ++ [status_write rt questionId (final_status (fst run))]) (Run.db s)
    /\ Forall (fun ev =>
         match ev with
         | QuestionsUpdate id _ => id = questionId
         | QuestionsSelectSingle _ | ChapterEmbeddingsSelect _
         | HuggingFacePost _ | ChatCompletionsCreate _ => True
         | _ => False
         end) before.
Proof.
  intros run. subst run.
  destruct (generateAnswer_path (Supabase0 := Mem.client fault) rt questionId s)
    as (tr & _ & -> & Hpath).
  destruct Hpath; cbn [final_status].
  - eexists [_]. split; [reflexivity|]. repeat constructor.
  - eexists [_; _]. split; [reflexivity|]. repeat constructor.
  - eexists [_; _; _]. split; [reflexivity|]. repeat constructor.
  - eexists [_; _; _; _; _]. split; [reflexivity|].
    unfold status_write. repeat constructor.
  - eexists [_; _; _; _; _; _]. split; [reflexivity|].
    unfold status_write, answer_write. repeat constructor.
Qed.

(** X13: on the in-memory store, when the question exists and the store
    accepts the last status write, the status an invocation leaves tells how
    it ended: [answered] when it returned, [failed] when it threw, never
    [pending], whatever the status was before and whatever became of the
    other writes. *)
Theorem generateAnswer_final_status (questionId : string) (s : Run.St Mem.DB)
    (q : Question.t) :
  let run := aiService.generateAnswer (Supabase0 := Mem.client fault) rt questionId s in
  Mem.questions (Run.db s) !! questionId = Some q ->
  fault (status_write rt questionId (final_status (fst run))) = Mem.NoFault ->
  exists q',
    Mem.questions (Run.db (snd run)) !! questionId = Some q'
    /\ Question.status q' = Some (final_status (fst run))
    /\ Question.status q' <> Some pending.
Proof.
  intros run Hq Hfault.
  destruct (generateAnswer_ends_with_status_write questionId s) as (before & Hdb & Hbefore).
  fold run in Hdb. rewrite Hdb.
  destruct (Mem_status_after questionId before _ _ q Hbefore Hq Hfault)
    as (q' & Hq' & Hstatus & _).
  exists q'. split; [exact Hq'|]. split; [exact Hstatus|].
  rewrite Hstatus. destruct (fst run); discriminate.
Qed.

End final_status.

(** ** routes/questions.route.ts: POST /:id/answer *)

Section answer_route.
Context (fault : Event -> Mem.Fault) {Body : Type} (rt : Runtime) (joi : Http.Joi Body).

(** X14: POST /:id/answer runs the pipeline for whoever asks: it never
    compares the owner of the question with the user of the request. On the
    in-memory store, for an existing question and a store that accepts the
    status writes, any request, with any user or none, is answered with 200
    and the generated answer, leaving the question [answered], or with 500
    and the message of the error, leaving it [failed]. *)
Theorem post_answer_settles_status (req : Http.Request Body) (s : Run.St Mem.DB)
    (q : Question.t) :
  let run := questionsRouter.post_answer (Supabase0 := Mem.client fault) rt req s in
  Mem.questions (Run.db s) !! Http.param req = Some q ->
  (forall st, fault (status_write rt (Http.param req) st) = Mem.NoFault) ->
  exists reply q',
    fst run = JS.Ok reply
    /\ Mem.questions (Run.db (snd run)) !! Http.param req = Some q'
    /\ Question.user_id q' = Question.user_id q
    /\ ((exists answer,
           reply = Http.mkReply 200 (Http.Generated answer)
           /\ Question.status q' = Some answered)
        \/ (exists message,
              reply = Http.mkReply 500 (Http.Failure message)
              /\ Question.status q' = Some failed)).
Proof.
  intros run Hq Hfault. subst run.
  destruct (generateAnswer_ends_with_status_write fault rt (Http.param req) s)
    as (before & Hdb & Hbefore).
  destruct (Mem_status_after fault rt (Http.param req) before
              (final_status (fst (aiService.generateAnswer (Supabase0 := Mem.client fault)
                                    rt (Http.param req) s)))
              _ q Hbefore Hq (Hfault _))
    as (q' & Hq' & Hstatus & Huser).
  rewrite <- Hdb in Hq'. clear Hdb.
  unfold questionsRouter.post_answer. run.
  destruct (aiService.generateAnswer rt (Http.param req) s) as [[answer|message] s1];
    cbn [fst snd final_status] in *; eexists _, q'; (split; [reflexivity|]);
    (split; [exact Hq'|]); (split; [exact Huser|]); [left|right]; eauto.
Qed.

End answer_route.

(** ** routes/questions.route.ts: the handlers behind the ownership test *)

Section route_runs.
Context {DB : Type} `{!Supabase DB}.

Lemma deleteQuestion_run (questionId : string) (s : Run.St DB) :
  exists r,
    questionsService.deleteQuestion questionId s
    = (JS.Ok r,
       Run.mkSt (replay_call (Run.db s) (QuestionsDelete questionId))
         (Run.trace s ++ [QuestionsDelete questionId])).
Proof.
  unfold questionsService.deleteQuestion, Run.try_catch, Run.bind, Run.query, Run.ret.
  unfold replay_call.
  destruct (questions_delete _ (Run.db s)) as [[r|e] d]; simpl.
  - destruct (Pg.error r); eauto.
  - eauto.
Qed.

(** What the ownership test of the handlers lets through. *)
Lemma not_owner_false (questionId : string) (d : DB)
    (result : ApiResponse.t QuestionWithTitle.t) (id : string)
    (response : Pg.Response QuestionWithTitle.t) :
  fst (questions_select_single questionId d) = JS.Ok response ->
  Pg.error response = None ->
  Pg.data response = ApiResponse.data result ->
  questionsRouter.not_owner result id = false ->
  owned_by id questionId d.
Proof.
  unfold questionsRouter.not_owner. intros Hsel Herr Hdata Hown.
  destruct (ApiResponse.data result) as [data|]; [|discriminate].
  apply negb_false_iff, String.eqb_eq in Hown.
  exists response, data. auto.
Qed.

End route_runs.

(** The handler has replied without any call. *)
Ltac replied_at_once :=
  eexists _, []; rewrite app_nil_r;
  split; [reflexivity|]; split; [reflexivity|];
  split; [intros ev []|]; intros _; split; [reflexivity|now left].

(** The handler has replied after the read of the question. *)
Ltac replied_after_read :=
  eexists _, [_];
  split; [reflexivity|]; split; [reflexivity|];
  split; [intros ev [<-|[]] []|]; intros _; split; [reflexivity|now right].

(** The handler has replied after the read and one write. *)
Ltac replied_after_write Hloaded Hown :=
  eexists _, [_; _];
  split; [reflexivity|]; split; [rewrite <- app_assoc; reflexivity|];
  split;
  [ intros ev [<-|[<-|[]]] Hw; [destruct Hw|];
    split; [reflexivity|]; split; [reflexivity|];
    split;
    [ eexists; split; [reflexivity|];
      destruct (Hloaded eq_refl) as (response & Hsel & Herr & Hdata);
      eapply not_owner_false; eauto
    | cbn [Http.code];
      match goal with
      | |- context [if ?b then _ else _] => destruct b
      end; auto ]
  | intros Hnone; exfalso; apply Hnone; apply Exists_cons_tl, Exists_cons_hd; exact I ].

Section guards.
Context {DB : Type} `{!Supabase DB} {Body : Type} (rt : Runtime) (joi : Http.Joi Body).

Lemma put_answer_owner_checked (req : Http.Request Body) (s : Run.St DB) :
  owner_checked req s (questionsRouter.put_answer rt joi req s).
Proof.
  unfold owner_checked, questionsRouter.put_answer, questionsRouter.internal_error,
    questionsRouter.user_id, questionsRouter.send.
  destruct (Http.questionIdSchema joi (Http.param req)) as [message|]; run;
    [replied_at_once|].
  destruct (Http.updateAnswerSchema joi (Http.body req)) as [message|answer_text]; run;
    [replied_at_once|].
  destruct (getQuestionById_run (Http.param req) s) as (r & -> & Hloaded & _).
  destruct (ApiResponse.success r) eqn:Hsuccess; cbn [negb]; run; [|replied_after_read].
  destruct (Http.user req) as [id|] eqn:Huser; run; [|replied_after_read].
  destruct (questionsRouter.not_owner r id) eqn:Hown; run; [replied_after_read|].
  match goal with
  | |- context [questionsService.updateQuestionAnswer rt ?q ?a ?s1] =>
      destruct (updateQuestionAnswer_run rt q a s1) as (r2 & ->)
  end.
  run. unfold answer_write. replied_after_write Hloaded Hown.
Qed.

Lemma put_status_owner_checked (req : Http.Request Body) (s : Run.St DB) :
  owner_checked req s (questionsRouter.put_status rt joi req s).
Proof.
  unfold owner_checked, questionsRouter.put_status, questionsRouter.internal_error,
    questionsRouter.user_id, questionsRouter.send.
  destruct (Http.questionIdSchema joi (Http.param req)) as [message|]; run;
    [replied_at_once|].
  destruct (Http.updateStatusSchema joi (Http.body req)) as [message|status]; run;
    [replied_at_once|].
  destruct (getQuestionById_run (Http.param req) s) as (r & -> & Hloaded & _).
  destruct (ApiResponse.success r) eqn:Hsuccess; cbn [negb]; run; [|replied_after_read].
  destruct (Http.user req) as [id|] eqn:Huser; run; [|replied_after_read].
  destruct (questionsRouter.not_owner r id) eqn:Hown; run; [replied_after_read|].
  match goal with
  | |- context [questionsService.updateQuestionStatus rt ?q ?a ?s1] =>
      destruct (updateQuestionStatus_run rt q a s1) as (r2 & ->)
  end.
  run. unfold status_write. replied_after_write Hloaded Hown.
Qed.

Lemma delete_question_owner_checked (req : Http.Request Body) (s : Run.St DB) :
  owner_checked req s (questionsRouter.delete_question joi req s).
Proof.
  unfold owner_checked, questionsRouter.delete_question, questionsRouter.internal_error,
    questionsRouter.user_id, questionsRouter.send.
  destruct (Http.questionIdSchema joi (Http.param req)) as [message|]; run;
    [replied_at_once|].
  destruct (getQuestionById_run (Http.param req) s) as (r & -> & Hloaded & _).
  destruct (ApiResponse.success r) eqn:Hsuccess; cbn [negb]; run; [|replied_after_read].
  destruct (Http.user req) as [id|] eqn:Huser; run; [|replied_after_read].
  destruct (questionsRouter.not_owner r id) eqn:Hown; run; [replied_after_read|].
  match goal with
  | |- context [questionsService.deleteQuestion ?q ?s1] =>
      destruct (deleteQuestion_run q s1) as (r2 & ->)
  end.
  run. replied_after_write Hloaded Hown.
Qed.

(** X10: the three handlers that change a question (PUT /:questionId/answer,
    PUT /:questionId/status, DELETE /:questionId) always send a reply, and
    issue a write only after the store has returned the question of the
    route as one of the requesting user: then they have made exactly that
    read and one write, addressed to the same question, and reply 200 or
    400. Without a user on the request, with a question of another user, or
    with a failed lookup, no write is issued. *)
Theorem mutations_are_owner_checked (req : Http.Request Body) (s : Run.St DB) :
  owner_checked req s (questionsRouter.put_answer rt joi req s)
  /\ owner_checked req s (questionsRouter.put_status rt joi req s)
  /\ owner_checked req s (questionsRouter.delete_question joi req s).
Proof.
  split; [|split].
  - apply put_answer_owner_checked.
  - apply put_status_owner_checked.
  - apply delete_question_owner_checked.
Qed.

End guards.

Section list_runs.
Context {DB : Type} `{!Supabase DB} (rt : Runtime).

Ltac list_run :=
  let response := fresh "response" in
  let e := fresh "e" in
  let d' := fresh "d'" in
  let Herr := fresh "Herr" in
  unfold listed_with, Run.try_catch, Run.bind, Run.query, Run.ret, replay_call;
  match goal with
  | |- context [questions_select_list ?f ?d] =>
      destruct (questions_select_list f d) as [[response|e] d']
  end; cbn [fst snd];
  [ destruct (Pg.error response) eqn:Herr;
    eexists; (split; [reflexivity|]); cbn [ApiResponse.success ApiResponse.data];
    [discriminate|intros _; exists response; auto]
  | eexists; split; [reflexivity|]; cbn [ApiResponse.success]; discriminate ].

Lemma getUserQuestions_run (userId : string) (titleId : option string) (s : Run.St DB) :
  listed_with
    (eq_ "user_id" userId ::
       (if truthy_string titleId then [eq_ "title_id" (default "" titleId)] else []))
    s (questionsService.getUserQuestions userId titleId s).
Proof. unfold questionsService.getUserQuestions. cbn [app]. list_run. Qed.

Lemma getQuestionsByStatus_run (userId : string) (status : Status) (s : Run.St DB) :
  listed_with [eq_ "user_id" userId; eq_ "status" (status_text status)] s
    (questionsService.getQuestionsByStatus userId status s).
Proof. unfold questionsService.getQuestionsByStatus. list_run. Qed.

Lemma getQuestionsByTitle_run (userId titleId : string) (s : Run.St DB) :
  listed_with [eq_ "user_id" userId; eq_ "title_id" titleId] s
    (questionsService.getQuestionsByTitle userId titleId s).
Proof. unfold questionsService.getQuestionsByTitle. list_run. Qed.

Lemma getRecentQuestions_run (userId : string) (days : option Z) (s : Run.St DB) :
  match days_ago_iso rt (default 7 days) with
  | JS.Ok cutoffDate =>
      listed_with [eq_ "user_id" userId; gte "created_at" cutoffDate] s
        (questionsService.getRecentQuestions rt userId days s)
  | JS.Throw _ =>
      exists r,
        questionsService.getRecentQuestions rt userId days s = (JS.Ok r, s)
        /\ ApiResponse.success r = false
  end.
Proof.
  unfold questionsService.getRecentQuestions.
  destruct (days_ago_iso rt (default 7 days)) as [cutoffDate|e] eqn:Hdays.
  - unfold Run.lift. list_run.
  - unfold Run.try_catch, Run.bind, Run.lift, Run.ret.
    eexists. split; reflexivity.
Qed.

End list_runs.

(** One step of a handler: a service call is replaced by its result. *)
Ltac service_step rt :=
  match goal with
  | |- context [@questionsService.getQuestionById ?D ?c ?q ?s1] =>
      let r := fresh "r" in let Hloaded := fresh "Hloaded" in
      destruct (@getQuestionById_run D c q s1) as (r & -> & Hloaded & _)
  | |- context [@questionsService.updateQuestionAnswer ?D ?c rt ?q ?a ?s1] =>
      let r := fresh "r" in
      destruct (@updateQuestionAnswer_run D c rt q a s1) as (r & ->)
  | |- context [@questionsService.updateQuestionStatus ?D ?c rt ?q ?a ?s1] =>
      let r := fresh "r" in
      destruct (@updateQuestionStatus_run D c rt q a s1) as (r & ->)
  | |- context [@questionsService.deleteQuestion ?D ?c ?q ?s1] =>
      let r := fresh "r" in
      destruct (@deleteQuestion_run D c q s1) as (r & ->)
  | |- context [@questionsService.getUserQuestions ?D ?c ?u ?t ?s1] =>
      let r := fresh "r" in let Hlisted := fresh "Hlisted" in
      destruct (@getUserQuestions_run D c u t s1) as (r & -> & Hlisted)
  | |- context [@questionsService.getQuestionsByStatus ?D ?c ?u ?t ?s1] =>
      let r := fresh "r" in let Hlisted := fresh "Hlisted" in
      destruct (@getQuestionsByStatus_run D c u t s1) as (r & -> & Hlisted)
  | |- context [@questionsService.getQuestionsByTitle ?D ?c ?u ?t ?s1] =>
      let r := fresh "r" in let Hlisted := fresh "Hlisted" in
      destruct (@getQuestionsByTitle_run D c u t s1) as (r & -> & Hlisted)
  | |- context [@questionsService.getRecentQuestions ?D ?c rt ?u ?t ?s1] =>
      let r := fresh "r" in let Hlisted := fresh "Hlisted" in
      let Hrecent := fresh "Hrecent" in
      pose proof (@getRecentQuestions_run D c rt u t s1) as Hrecent;
      destruct (days_ago_iso rt (default 7 t));
      [destruct Hrecent as (r & -> & Hlisted) | destruct Hrecent as (r & -> & Hlisted)]
  end.

Ltac handler_unfold :=
  unfold questionsRouter.get_user, questionsRouter.get_my, questionsRouter.get_status,
    questionsRouter.get_recent, questionsRouter.get_title, questionsRouter.get_question,
    questionsRouter.put_answer, questionsRouter.put_status, questionsRouter.delete_question,
    questionsRouter.internal_error, questionsRouter.user_id, questionsRouter.send.

(** Symbolic execution of a handler to its replies. *)
Ltac handler_cases rt :=
  repeat first
    [ progress run
    | service_step rt
    | match goal with
      | |- context [match Http.questionIdSchema ?j ?p with _ => _ end] =>
          destruct (Http.questionIdSchema j p) eqn:?
      | |- context [match Http.userIdSchema ?j ?p with _ => _ end] =>
          destruct (Http.userIdSchema j p) eqn:?
      | |- context [match Http.titleQuerySchema ?j ?p with _ => _ end] =>
          destruct (Http.titleQuerySchema j p) eqn:?
      | |- context [match Http.daysQuerySchema ?j ?p with _ => _ end] =>
          destruct (Http.daysQuerySchema j p) eqn:?
      | |- context [match Http.statusQuerySchema ?j ?p with _ => _ end] =>
          destruct (Http.statusQuerySchema j p) eqn:?
      | |- context [match Http.updateAnswerSchema ?j ?p with _ => _ end] =>
          destruct (Http.updateAnswerSchema j p) eqn:?
      | |- context [match Http.updateStatusSchema ?j ?p with _ => _ end] =>
          destruct (Http.updateStatusSchema j p) eqn:?
      | |- context [match Http.user ?req with _ => _ end] =>
          destruct (Http.user req) eqn:?
      | |- context [if negb (ApiResponse.success ?r) then _ else _] =>
          destruct (ApiResponse.success r) eqn:?; cbn [negb]
      | |- context [if questionsRouter.not_owner ?r ?i then _ else _] =>
          destruct (questionsRouter.not_owner r i) eqn:?
      | |- context [if negb (String.eqb ?a ?b) then _ else _] =>
          destruct (String.eqb_spec a b); cbn [negb]
      | |- context [if String.eqb ?a ?b then _ else _] =>
          destruct (String.eqb_spec a b)
      end ].

Section replies.
Context {DB : Type} `{!Supabase DB} {Body : Type} (rt : Runtime) (joi : Http.Joi Body).

Ltac answered :=
  eexists; split; [reflexivity|]; cbn [Http.code];
  repeat match goal with
         | |- context [if ?b then _ else _] => destruct b
         end;
  (split; [simpl; auto 10 | first [intros _; reflexivity | intros; discriminate]]).

(** X11: every handler of the questions router other than POST / and
    POST /:id/answer always sends a reply, with one of the codes 200, 400,
    403, 404 and 500, and sends 500 only when the request carries no user:
    behind a middleware that sets [req.user] none of them fails
    internally, whatever the store does. *)
Theorem handlers_answer_requests (req : Http.Request Body) (s : Run.St DB) :
  answers_request req (questionsRouter.get_user joi req s)
  /\ answers_request req (questionsRouter.get_my joi req s)
  /\ answers_request req (questionsRouter.get_status joi req s)
  /\ answers_request req (questionsRouter.get_recent rt joi req s)
  /\ answers_request req (questionsRouter.get_title req s)
  /\ answers_request req (questionsRouter.get_question joi req s)
  /\ answers_request req (questionsRouter.put_answer rt joi req s)
  /\ answers_request req (questionsRouter.put_status rt joi req s)
  /\ answers_request req (questionsRouter.delete_question joi req s).
Proof.
  unfold answers_request.
  repeat split; handler_unfold; handler_cases rt; answered.
Qed.

End replies.

Section mem_reads.
Context (fault : Event -> Mem.Fault).

Lemma Mem_select_list_rows (filters : list Filter) (d : Mem.DB)
    (response : Pg.Response (list QuestionWithTitle.t)) (row : QuestionWithTitle.t) :
  fst (questions_select_list (Supabase := Mem.client fault) filters d) = JS.Ok response ->
  Pg.error response = None ->
  In row (default [] (Pg.data response)) ->
  (exists key, Mem.questions d !! key = Some (QuestionWithTitle.row row))
  /\ forall f, In f filters -> Mem.matches (QuestionWithTitle.row row) f = true.
Proof.
  cbn [questions_select_list Mem.client]. unfold Mem.guarded, Mem.select_list.
  destruct (fault _); cbn [fst]; [|intros [= <-]; discriminate|discriminate].
  intros [= <-] _. cbn [Pg.data default].
  change (default [] (Some ?l)) with l.
  intros Hin. apply list_elem_of_In, list_elem_of_fmap in Hin.
  destruct Hin as (q & -> & Hq). cbn [Mem.with_title QuestionWithTitle.row].
  apply list_elem_of_In, sort_In, list_elem_of_In, list_elem_of_filter in Hq.
  destruct Hq as [Hmatch Hq].
  apply list_elem_of_fmap in Hq. destruct Hq as ([key q'] & -> & Hq).
  apply elem_of_map_to_list in Hq. cbn [snd] in *.
  split; [eauto|].
  intros f Hf. rewrite forallb_forall in Hmatch. now apply Hmatch.
Qed.

Lemma Mem_select_list_own (id : string) (filters : list Filter) (d : Mem.DB)
    (response : Pg.Response (list QuestionWithTitle.t)) :
  fst (questions_select_list (Supabase := Mem.client fault)
         (eq_ "user_id" id :: filters) d) = JS.Ok response ->
  Pg.error response = None ->
  own_rows id d (default [] (Pg.data response)).
Proof.
  intros Hsel Herr. apply List.Forall_forall. intros row Hrow.
  destruct (Mem_select_list_rows _ _ _ _ Hsel Herr Hrow) as [Hkey Hmatch].
  split; [|exact Hkey].
  specialize (Hmatch (eq_ "user_id" id) (or_introl eq_refl)).
  cbn in Hmatch. now apply String.eqb_eq in Hmatch.
Qed.

End mem_reads.

Section own_reads.
Context (fault : Event -> Mem.Fault) {Body : Type} (rt : Runtime) (joi : Http.Joi Body).

Ltac not_ok :=
  let reply := fresh "reply" in
  let Hcode := fresh "Hcode" in
  intros reply [= <-] Hcode; cbn [Http.code] in Hcode; discriminate.

Ltac listed_ok :=
  let reply := fresh "reply" in
  let Hcode := fresh "Hcode" in
  intros reply [= <-] Hcode; cbn [Http.code Http.payload] in *;
  match goal with
  | Hlisted : ApiResponse.success ?r = true -> _ |- _ =>
      destruct (ApiResponse.success r) eqn:Hsuccess; [|discriminate];
      destruct (Hlisted eq_refl) as (response & Hsel & Herr & Hdata);
      eexists _, _, _; split; [reflexivity|]; split; [reflexivity|];
      split; [assumption|]; split; [eassumption|];
      subst; eapply Mem_select_list_own; eauto
  | Hfailed : ApiResponse.success ?r = false |- _ =>
      rewrite Hfailed in Hcode; discriminate
  end.

(** X12: on the in-memory store, whatever its failures, a reply with code
    200 of any of the six handlers that read questions (GET /user/:userId,
    /my, /status/:status, /recent, /title/:titleId and /:questionId) carries
    stored questions of the requesting user only. *)
Theorem reads_serve_own_questions (req : Http.Request Body) (s : Run.St Mem.DB) :
  serves_own_rows (fun rows => rows) req (Run.db s)
    (questionsRouter.get_user (Supabase0 := Mem.client fault) joi req s)
  /\ serves_own_rows (fun rows => rows) req (Run.db s)
       (questionsRouter.get_my (Supabase0 := Mem.client fault) joi req s)
  /\ serves_own_rows (fun rows => rows) req (Run.db s)
       (questionsRouter.get_status (Supabase0 := Mem.client fault) joi req s)
  /\ serves_own_rows (fun rows => rows) req (Run.db s)
       (questionsRouter.get_recent (Supabase0 := Mem.client fault) rt joi req s)
  /\ serves_own_rows (fun rows => rows) req (Run.db s)
       (questionsRouter.get_title (Supabase0 := Mem.client fault) req s)
  /\ serves_own_rows (fun row => [row]) req (Run.db s)
       (questionsRouter.get_question (Supabase0 := Mem.client fault) joi req s).
Proof.
  unfold serves_own_rows.
  split; [|split; [|split; [|split; [|split]]]];
    handler_unfold; handler_cases rt; try not_ok; try listed_ok.
  intros reply [= <-] _. cbn [Http.payload].
  match goal with
  | Hloaded : true = true -> _ |- _ =>
      destruct (Hloaded eq_refl) as (response & Hsel & Herr & Hdata)
  end.
  match goal with
  | Hown : questionsRouter.not_owner ?r ?id = false |- _ =>
      unfold questionsRouter.not_owner in Hown;
      destruct (ApiResponse.data r) as [data|] eqn:Hr; [|discriminate];
      apply negb_false_iff, String.eqb_eq in Hown
  end.
  eexists _, _, data. split; [reflexivity|]. split; [reflexivity|].
  split; [assumption|]. split; [assumption|].
  constructor; [|constructor]. split; [assumption|].
  exists (Http.param req). eapply Mem_select_single_found; eauto.
Qed.

End own_reads.

(** ** Instances on the sample data: the router *)

Lemma generateAnswer_final_status_witness :
  let run := aiService.generateAnswer (Supabase0 := Mem.client Sample.no_fault)
               Sample.runtime "q1" Scenario.start in
  exists q',
    Mem.questions (Run.db (snd run)) !! "q1" = Some q'
    /\ Question.status q' = Some (final_status (fst run))
    /\ Question.status q' <> Some pending.
Proof.
  apply (generateAnswer_final_status Sample.no_fault Sample.runtime "q1" Scenario.start
           Sample.question); reflexivity.
Defined.

Lemma post_answer_settles_status_witness :
  let run := questionsRouter.post_answer (Supabase0 := Mem.client Sample.no_fault)
               Sample.runtime Scenario.by_another Scenario.start in
  exists reply q',
    fst run = JS.Ok reply
    /\ Mem.questions (Run.db (snd run)) !! "q1" = Some q'
    /\ Question.user_id q' = "u1"
    /\ ((exists answer,
           reply = Http.mkReply 200 (Http.Generated answer)
           /\ Question.status q' = Some answered)
        \/ (exists message,
              reply = Http.mkReply 500 (Http.Failure message)
              /\ Question.status q' = Some failed)).
Proof.
  apply (post_answer_settles_status Sample.no_fault Sample.runtime Scenario.by_another
           Scenario.start Sample.question); [reflexivity|intros st; reflexivity].
Defined.

(** The same reader is refused the deletion, and the store stays as it is. *)
Example delete_by_another_is_refused :
  let run := questionsRouter.delete_question (Supabase0 := Mem.client Sample.no_fault)
               Scenario.joi Scenario.by_another Scenario.start in
  fst run = JS.Ok (Http.mkReply 403 (Http.Failure "Access denied"))
  /\ Run.db (snd run) = Scenario.store
  /\ Run.trace (snd run) = [QuestionsSelectSingle "q1"].
Proof. vm_compute. repeat split. Qed.

(** The pipeline is run for the reader [u2] on the question of [u1]. *)
Example answer_for_another_is_generated :
  let run := questionsRouter.post_answer (Supabase0 := Mem.client Sample.no_fault)
               Sample.runtime Scenario.by_another Scenario.start in
  fst run = JS.Ok (Http.mkReply 200 (Http.Generated "Nobody knows yet."))
  /\ (Question.status <$> Mem.questions (Run.db (snd run)) !! "q1") = Some (Some answered).
Proof. vm_compute. repeat split. Qed.
